(** * Smart data merger: the merge engine of [core.py]

    A shallow embedding of [MergeEngine] (key detection, key validation and
    the merge itself) and of the helpers at the end of [core.py].

    Modelling choices, all of them visible in the definitions below:
    - text is [string] over 8-bit characters; [str.upper], [str.lower] and
      [str.strip] act on the ASCII range;
    - a cell of a data frame is a missing value (NaN), an integer or a text;
    - Python floats that only carry ratios ([unique_ratio], [combined_score],
      the ratios of the validation report) are exact rationals [Q];
    - an exception is a value: every operation that can raise returns a
      [result];
    - pandas is the library as of version 2: [str.replace] takes its
      pattern as literal text, [df[label]] is a frame when the label occurs
      several times, and [pd.merge] refuses labels that the suffixes make
      equal within one side but not labels that meet across the sides;
    - [fuzz.ratio] (package fuzzywuzzy) is a variable of the section that
      holds the detector. *)

From Stdlib Require Import List String Ascii Bool Arith ZArith QArith Lia.
From Stdlib Require Import DecimalString Sorted Permutation FinFun Lqa.
Import ListNotations.

Local Close Scope Q_scope.
Local Open Scope string_scope.
Local Open Scope list_scope.
Local Open Scope nat_scope.

(** ** Exceptions *)

Inductive exn : Type :=
| ZeroDivisionError
| KeyError
| ValueError
| AttributeError
| MergeError.

Inductive result (A : Type) : Type :=
| Ok (a : A)
| Raise (e : exn).

Arguments Ok {A} a.
Arguments Raise {A} e.

Definition bind {A B : Type} (m : result A) (k : A -> result B) : result B :=
  match m with
  | Ok a => k a
  | Raise e => Raise e
  end.

Notation "x <- m ;; k" := (bind m (fun x => k))
  (at level 61, m at next level, right associativity).

(** ** Text *)

Module Text.

(** The characters [str.isspace] accepts below 128: tab, line feed, vertical
    tab, form feed, carriage return, the four separators 28..31 and space. *)
Definition is_space (c : ascii) : bool :=
  let n := nat_of_ascii c in
  ((9 <=? n) && (n <=? 13)) || ((28 <=? n) && (n <=? 32)).

Definition is_lower (c : ascii) : bool :=
  let n := nat_of_ascii c in (97 <=? n) && (n <=? 122).

Definition is_upper (c : ascii) : bool :=
  let n := nat_of_ascii c in (65 <=? n) && (n <=? 90).

Definition upper_ascii (c : ascii) : ascii :=
  if is_lower c then ascii_of_nat (nat_of_ascii c - 32) else c.

Definition lower_ascii (c : ascii) : ascii :=
  if is_upper c then ascii_of_nat (nat_of_ascii c + 32) else c.

Fixpoint map_string (f : ascii -> ascii) (s : string) : string :=
  match s with
  | EmptyString => EmptyString
  | String c r => String (f c) (map_string f r)
  end.

(** [s.upper()] and [s.lower()] *)
Definition upper : string -> string := map_string upper_ascii.
Definition lower : string -> string := map_string lower_ascii.

(** [s.lstrip()] *)
Fixpoint lstrip (s : string) : string :=
  match s with
  | EmptyString => EmptyString
  | String c r => if is_space c then lstrip r else s
  end.

(** [s.rstrip()] *)
Fixpoint rstrip (s : string) : string :=
  match s with
  | EmptyString => EmptyString
  | String c r =>
      match rstrip r with
      | EmptyString => if is_space c then EmptyString else String c EmptyString
      | r' => String c r'
      end
  end.

(** [s.strip()] *)
Definition strip (s : string) : string := rstrip (lstrip s).

Definition is_dot (c : ascii) : bool := Ascii.eqb c ".".
Definition is_zero (c : ascii) : bool := Ascii.eqb c "0".

(** [s.replace('.0', '')]: one pass from the left, occurrences do not
    overlap, the text that is left is not scanned again. *)
Fixpoint replace_dot0 (s : string) : string :=
  match s with
  | EmptyString => EmptyString
  | String c r =>
      match r with
      | EmptyString => String c EmptyString
      | String d r' =>
          if is_dot c && is_zero d then replace_dot0 r'
          else String c (replace_dot0 r)
      end
  end.

(** ['.0' in s] *)
Fixpoint has_dot0 (s : string) : bool :=
  match s with
  | EmptyString => false
  | String c r =>
      match r with
      | EmptyString => false
      | String d _ => (is_dot c && is_zero d) || has_dot0 r
      end
  end.

(** [s.endswith(suffix)] *)
Definition endswith (s suffix : string) : bool :=
  let n := String.length s in
  let m := String.length suffix in
  (m <=? n) && String.eqb (substring (n - m) m s) suffix.

End Text.

Import Text.

(** ** Cells *)

(** A cell as [read_csv] and [read_excel] deliver it: missing (NaN), an
    integer, or a text. *)
Inductive cell : Type :=
| CNaN
| CInt (z : Z)
| CStr (s : string).

Definition cell_eq_dec (a b : cell) : {a = b} + {a <> b}.
Proof.
  decide equality; [apply Z.eq_dec | apply string_dec].
Defined.

(** [pd.isna(v)] *)
Definition isna (c : cell) : bool :=
  match c with CNaN => true | _ => false end.

(** [str(v)], which is what [Series.astype(str)] applies to each cell. *)
Definition astype_str (c : cell) : string :=
  match c with
  | CNaN => "nan"
  | CInt z => NilZero.string_of_int (Z.to_int z)
  | CStr s => s
  end.

(** ** The normalizations of [core.py] *)

(** Lines 122-123 and 134-135 of [detect_merge_keys]:
    [.astype(str).str.strip().str.replace('.0', '').str.upper()] *)
Definition token (c : cell) : string :=
  upper (replace_dot0 (strip (astype_str c))).

(** Lines 250-251 of [perform_merge]:
    [.astype(str).str.strip().str.replace('.0', '')] *)
Definition merge_key (c : cell) : string :=
  replace_dot0 (strip (astype_str c)).

(** Lines 187-188 of [validate_merge_keys]: [.astype(str).str.strip()] *)
Definition clean_value (c : cell) : string :=
  strip (astype_str c).

(** [normalize_tracking_code], lines 380-384. *)
Definition normalize_tracking_code (value : cell) : string :=
  if isna value || (if cell_eq_dec value (CStr "") then true else false)
  then ""
  else upper (strip (astype_str value)).

(** ** Data frames *)

(** A frame is its column labels and its rows; every row has one cell per
    label.  pandas allows a label to occur more than once. *)
Record DataFrame : Type := {
  columns : list string;
  rows : list (list cell)
}.

(** [len(df)] *)
Definition len (df : DataFrame) : nat := List.length (rows df).

(** [df.empty]: true when either axis has length 0. *)
Definition empty (df : DataFrame) : bool :=
  (List.length (columns df) =? 0) || (len df =? 0).

(** [col in df.columns] *)
Definition mem (x : string) (l : list string) : bool :=
  existsb (String.eqb x) l.

(** The positions of the label [col] among [cols]. *)
Fixpoint positions_from (i : nat) (col : string) (cols : list string)
  : list nat :=
  match cols with
  | [] => []
  | c :: cs =>
      if String.eqb c col then i :: positions_from (S i) col cs
      else positions_from (S i) col cs
  end.

Definition positions (col : string) (cols : list string) : list nat :=
  positions_from 0 col cols.

Definition column_at (i : nat) (df : DataFrame) : list cell :=
  map (fun r => nth i r CNaN) (rows df).

(** What [df[col]] evaluates to: a series when the label occurs once, a
    narrower frame when it occurs several times. *)
Inductive item : Type :=
| Series (values : list cell)
| Frame (width : nat).

(** [df[col]]; an unknown label raises [KeyError]. *)
Definition getitem (df : DataFrame) (col : string) : result item :=
  match positions col (columns df) with
  | [] => Raise KeyError
  | [i] => Ok (Series (column_at i df))
  | ps => Ok (Frame (List.length ps))
  end.

(** The uses of [df[col]] in [core.py] all need a series: [.str], [.tolist]
    and the truth value of a comparison raise on a frame, each with its own
    exception [e]. *)
Definition as_series (e : exn) (it : item) : result (list cell) :=
  match it with
  | Series v => Ok v
  | Frame _ => Raise e
  end.

Fixpoint set_nth {A : Type} (i : nat) (x : A) (l : list A) : list A :=
  match l, i with
  | [], _ => []
  | _ :: t, O => x :: t
  | h :: t, S j => h :: set_nth j x t
  end.

(** [df[col] = values] for a label at position [i]. *)
Definition set_column (i : nat) (values : list cell) (df : DataFrame)
  : DataFrame :=
  {| columns := columns df;
     rows := map (fun rv => set_nth i (snd rv) (fst rv))
                 (combine (rows df) values) |}.

(** [df.rename(columns={old: new})]: every label equal to [old] changes;
    a label that does not occur is ignored. *)
Definition rename (old new : string) (df : DataFrame) : DataFrame :=
  {| columns := map (fun c => if String.eqb c old then new else c)
                    (columns df);
     rows := rows df |}.

(** [Series.nunique()]: the number of distinct values, NaN not counted. *)
Definition nunique (v : list cell) : nat :=
  List.length (nodup cell_eq_dec (filter (fun c => negb (isna c)) v)).

(** A Python [set] of texts, kept as a list without repetition. *)
Definition to_set (l : list string) : list string := nodup string_dec l.

(** [a.intersection(b)] *)
Definition intersection (a b : list string) : list string :=
  filter (fun v => mem v b) a.

(** The quotient [n / d] of two counts, for [d > 0]. *)
Definition ratio (n d : nat) : Q := (Z.of_nat n # Pos.of_nat d)%Q.

(** ** The engine *)

Record MergeEngine : Type := {
  df1 : option DataFrame;
  df2 : option DataFrame;
  file1_path : string;
  file2_path : string;
  merge_result : option DataFrame;
  detected_keys : list (string * string * Q)
}.

(** [MergeEngine.__init__] *)
Definition init : MergeEngine :=
  {| df1 := None; df2 := None; file1_path := ""; file2_path := "";
     merge_result := None; detected_keys := [] |}.

(** *** [load_file] *)

(** What lines 38-58 hand to the rest of [load_file]: the reader of the
    file's format returned a frame, raised, or the extension (or the
    encoding of a CSV file) was refused. *)
Inductive read_outcome : Type :=
| ReadFrame (df : DataFrame)
| ReadRaises
| ReadRefused.

(** [df.columns = df.columns.str.strip()] *)
Definition strip_columns (df : DataFrame) : DataFrame :=
  {| columns := map strip (columns df); rows := rows df |}.

(** [load_file(file_path, file_number)], given what reading [file_path]
    produced.  Returns the engine and the boolean of the source. *)
Definition load_file (self : MergeEngine) (file_path : string)
    (read : read_outcome) (file_number : Z) : MergeEngine * bool :=
  match read with
  | ReadRefused => (self, false)
  | ReadRaises => (self, false)
  | ReadFrame df =>
      if empty df then (self, false)
      else
        let df := strip_columns df in
        if Z.eqb file_number 1 then
          ({| df1 := Some df; df2 := df2 self;
              file1_path := file_path; file2_path := file2_path self;
              merge_result := merge_result self;
              detected_keys := detected_keys self |}, true)
        else
          ({| df1 := df1 self; df2 := Some df;
              file1_path := file1_path self; file2_path := file_path;
              merge_result := merge_result self;
              detected_keys := detected_keys self |}, true)
  end.

(** *** [detect_merge_keys] *)

(** A candidate as line 152 appends it:
    [(col1, col2, combined_score, len(intersection))]. *)
Record candidate : Type := {
  cand_col1 : string;
  cand_col2 : string;
  cand_score : Q;
  cand_matches : nat
}.

(** The comparison Python makes on the sort key [(x[2], x[3])]: the first
    components decide unless they are equal. *)
Definition key_ltb (a b : candidate) : bool :=
  match (cand_score a ?= cand_score b)%Q with
  | Lt => true
  | Eq => cand_matches a <? cand_matches b
  | Gt => false
  end.

Fixpoint insert_desc (x : candidate) (l : list candidate) : list candidate :=
  match l with
  | [] => [x]
  | y :: l' => if key_ltb x y then y :: insert_desc x l' else x :: l
  end.

(** [candidates.sort(key=lambda x: (x[2], x[3]), reverse=True)]: descending
    and stable, candidates with equal keys keep their order. *)
Definition sort_reverse (l : list candidate) : list candidate :=
  fold_right insert_desc [] l.

(** Line 126: [v not in ['', 'NAN', 'NONE', 'NULL']] *)
Definition absent (v : string) : bool :=
  mem v [""; "NAN"; "NONE"; "NULL"].

(** Lines 122-127: the set of the tokens of a column, absent ones removed. *)
Definition token_set (v : list cell) : list string :=
  filter (fun t => negb (absent t)) (to_set (map token v)).

(** Lines 97-102: the columns whose ratio of distinct values exceeds 0.7.
    The loop is outside any [try]: a label that occurs twice makes
    [unique_ratio] a series, whose truth value raises, and a frame without
    rows makes the division raise. *)
Fixpoint unique_cols_of (df : DataFrame) (cols : list string)
  : result (list string) :=
  match cols with
  | [] => Ok []
  | col :: cs =>
      it <- getitem df col ;;
      v <- as_series ValueError it ;;
      if len df =? 0 then Raise ZeroDivisionError
      else
        let unique_ratio := ratio (nunique v) (len df) in
        rest <- unique_cols_of df cs ;;
        if negb (Qle_bool unique_ratio (7 # 10)) then Ok (col :: rest)
        else Ok rest
  end.

Definition unique_cols (df : DataFrame) : result (list string) :=
  unique_cols_of df (columns df).

Section Detector.

(** [fuzz.ratio] of fuzzywuzzy: an integer between 0 and 100. *)
Variable fuzz_ratio : string -> string -> Z.

(** Lines 115-152, the body of the two loops for one pair of columns.
    [Ok None] is the [continue] of line 142, [Raise] an exception that
    line 154 catches. *)
Definition compare_columns (d1 d2 : DataFrame) (min_match_ratio : Q)
    (col1 col2 : string) : result (option candidate) :=
  let name_similarity :=
    (inject_Z (fuzz_ratio (lower col1) (lower col2)) / 100)%Q in
  s1 <- (it <- getitem d1 col1 ;; as_series AttributeError it) ;;
  s2 <- (it <- getitem d2 col2 ;; as_series AttributeError it) ;;
  let values1 := token_set s1 in
  let values2 := token_set s2 in
  (* lines 129-131, before the sets are known to be inhabited *)
  if Nat.min (List.length values1) (List.length values2) =? 0
  then Raise ZeroDivisionError
  else
    (* lines 134-152 *)
    if (List.length values1 =? 0) || (List.length values2 =? 0) then Ok None
    else
      let inter := intersection values1 values2 in
      let overlap_ratio :=
        ratio (List.length inter)
              (Nat.min (List.length values1) (List.length values2)) in
      let combined_score :=
        (name_similarity * (3 # 10) + overlap_ratio * (7 # 10))%Q in
      if Qle_bool min_match_ratio combined_score
      then Ok (Some {| cand_col1 := col1; cand_col2 := col2;
                       cand_score := combined_score;
                       cand_matches := List.length inter |})
      else Ok None.

(** Lines 112-156: the candidates in the order the loops append them. *)
Definition collect (d1 d2 : DataFrame) (min_match_ratio : Q)
    (cols1 cols2 : list string) : list candidate :=
  flat_map (fun col1 =>
    flat_map (fun col2 =>
      match compare_columns d1 d2 min_match_ratio col1 col2 with
      | Ok (Some c) => [c]
      | Ok None => []
      | Raise _ => []
      end) cols2) cols1.

Definition format_key (c : candidate) : string * string * Q :=
  (cand_col1 c, cand_col2 c, cand_score c).

(** The list [candidates] after line 159, for two loaded frames. *)
Definition ranked (d1 d2 : DataFrame) (min_match_ratio : Q)
  : result (list candidate) :=
  df1_unique_cols <- unique_cols d1 ;;
  df2_unique_cols <- unique_cols d2 ;;
  Ok (sort_reverse
        (collect d1 d2 min_match_ratio df1_unique_cols df2_unique_cols)).

(** [detect_merge_keys(min_match_ratio)]: the engine afterwards and the
    list returned.  A [Raise] is an exception that leaves the method. *)
Definition detect_merge_keys (self : MergeEngine) (min_match_ratio : Q)
  : result (MergeEngine * list (string * string * Q)) :=
  match df1 self, df2 self with
  | Some d1, Some d2 =>
      candidates <- ranked d1 d2 min_match_ratio ;;
      let keys := map format_key candidates in
      Ok ({| df1 := df1 self; df2 := df2 self;
             file1_path := file1_path self; file2_path := file2_path self;
             merge_result := merge_result self;
             detected_keys := keys |}, keys)
  | _, _ => Ok (self, [])
  end.

End Detector.

(** *** [validate_merge_keys] *)

(** The dictionary of line 203, with the warnings of line 223. *)
Record report : Type := {
  file1_total : nat;
  file1_unique : nat;
  file1_uniqueness : Q;
  file2_total : nat;
  file2_unique : nat;
  file2_uniqueness : Q;
  common_values : nat;
  match_ratio_file1 : Q;
  match_ratio_file2 : Q;
  warnings : list string
}.

(** What [validate_merge_keys] returns: [{"valid": False, "error": ...}] or
    the report with ["valid": True]. *)
Inductive validation : Type :=
| Invalid (error : string)
| Valid (r : report).

(** [str(e)] for the exceptions of this file. *)
Definition str_exn (e : exn) : string :=
  match e with
  | ZeroDivisionError => "division by zero"
  | KeyError => "key not found"
  | ValueError => "The truth value of a Series is ambiguous"
  | AttributeError => "'DataFrame' object has no attribute 'str'"
  | MergeError => "merge failed"
  end.

(** Lines 191-192: the values kept for the statistics. *)
Definition clean_values (v : list string) : list string :=
  filter (fun s => negb (String.eqb s "") && negb (String.eqb s "nan")) v.

(** [n / d if d > 0 else 0] *)
Definition ratio_or_zero (n d : nat) : Q :=
  if 0 <? d then ratio n d else 0%Q.

Definition validate_merge_keys (self : MergeEngine) (key1 key2 : string)
  : validation :=
  match df1 self, df2 self with
  | Some d1, Some d2 =>
      if negb (mem key1 (columns d1)) then
        Invalid ("Column '" ++ key1 ++ "' not found in first file")
      else if negb (mem key2 (columns d2)) then
        Invalid ("Column '" ++ key2 ++ "' not found in second file")
      else
        let body : result report :=
          s1 <- (it <- getitem d1 key1 ;; as_series AttributeError it) ;;
          s2 <- (it <- getitem d2 key2 ;; as_series AttributeError it) ;;
          let values1 := map clean_value s1 in
          let values2 := map clean_value s2 in
          let clean_values1 := clean_values values1 in
          let clean_values2 := clean_values values2 in
          let unique1 := List.length (to_set clean_values1) in
          let unique2 := List.length (to_set clean_values2) in
          let total1 := List.length clean_values1 in
          let total2 := List.length clean_values2 in
          let matches :=
            intersection (to_set (map upper clean_values1))
                         (to_set (map upper clean_values2)) in
          let u1 := ratio_or_zero unique1 total1 in
          let u2 := ratio_or_zero unique2 total2 in
          let m1 := ratio_or_zero (List.length matches) unique1 in
          let m2 := ratio_or_zero (List.length matches) unique2 in
          let warnings :=
            if negb (Qle_bool (7 # 10) u1) && negb (Qle_bool (7 # 10) u2)
            then ["Both columns have low uniqueness - may not be good merge keys"]
            else if negb (Qle_bool (3 # 10) m1) && negb (Qle_bool (3 # 10) m2)
            then ["Low overlap between files - check if columns are compatible"]
            else [] in
          Ok {| file1_total := total1; file1_unique := unique1;
                file1_uniqueness := u1;
                file2_total := total2; file2_unique := unique2;
                file2_uniqueness := u2;
                common_values := List.length matches;
                match_ratio_file1 := m1; match_ratio_file2 := m2;
                warnings := warnings |}
        in
        match body with
        | Ok r => Valid r
        | Raise e => Invalid ("Error validating keys: " ++ str_exn e)
        end
  | _, _ => Invalid "Files not loaded"
  end.

(** *** [pd.merge] *)

(** The [how] of [perform_merge]: ['left'], ['right'], ['inner'], ['outer']. *)
Inductive join : Type := JoinLeft | JoinRight | JoinInner | JoinOuter.

(** [Index.duplicated()]: true at every occurrence of a label but its
    first. *)
Fixpoint duplicated_from (seen l : list string) : list bool :=
  match l with
  | [] => []
  | x :: t => mem x seen :: duplicated_from (x :: seen) t
  end.

Definition duplicated (l : list string) : list bool := duplicated_from [] l.

Fixpoint remove_nth {A : Type} (i : nat) (l : list A) : list A :=
  match l, i with
  | [], _ => []
  | _ :: t, O => t
  | h :: t, S j => h :: remove_nth j t
  end.

(** The one position of the label [on], as the join needs it: an unknown
    label raises [KeyError], a label that is not unique [ValueError]. *)
Definition key_position (on : string) (df : DataFrame) : result nat :=
  match positions on (columns df) with
  | [] => Raise KeyError
  | [i] => Ok i
  | _ => Raise ValueError
  end.

(** The labels of the right frame in the result, for
    [suffixes=('', '_right')]: a right label that is also a left label gets
    the suffix, the left labels stay.  Labels that the suffix makes equal
    within the right frame raise [MergeError]. *)
Definition right_labels (left_cols right_cols : list string)
  : result (list string) :=
  let rlabels :=
    map (fun c => if mem c left_cols then (c ++ "_right")%string else c) right_cols in
  if existsb (fun p => fst p && negb (snd p))
             (combine (duplicated rlabels) (duplicated right_cols))
  then Raise MergeError
  else Ok rlabels.

(** The rows of [keys] whose key equals [k], by position. *)
Fixpoint matches_from (i : nat) (k : cell) (keys : list cell) : list nat :=
  match keys with
  | [] => []
  | k' :: t =>
      if cell_eq_dec k k' then i :: matches_from (S i) k t
      else matches_from (S i) k t
  end.

Definition matches_of (k : cell) (keys : list cell) : list nat :=
  matches_from 0 k keys.

(** A row of the result is a row of the left frame, a row of the right
    frame, or both ([None] is the -1 of pandas' indexers). *)
Definition pairing : Type := (option nat * option nat)%type.

Definition left_pairs (keep_unmatched : bool) (lkeys rkeys : list cell)
  : list pairing :=
  flat_map (fun ik =>
    match matches_of (snd ik) rkeys with
    | [] => if keep_unmatched then [(Some (fst ik), None)] else []
    | ms => map (fun j => (Some (fst ik), Some j)) ms
    end) (combine (seq 0 (List.length lkeys)) lkeys).

Definition right_pairs (lkeys rkeys : list cell) : list pairing :=
  flat_map (fun jk =>
    match matches_of (snd jk) lkeys with
    | [] => [(None, Some (fst jk))]
    | ms => map (fun i => (Some i, Some (fst jk))) ms
    end) (combine (seq 0 (List.length rkeys)) rkeys).

Definition right_only (lkeys rkeys : list cell) : list pairing :=
  flat_map (fun jk =>
    match matches_of (snd jk) lkeys with
    | [] => [(None, Some (fst jk))]
    | _ => []
    end) (combine (seq 0 (List.length rkeys)) rkeys).

(** The key of a pairing: the left key, or the right one for a row that
    only the right frame has. *)
Definition pairing_key (lkeys rkeys : list cell) (p : pairing) : cell :=
  match p with
  | (Some i, _) => nth i lkeys CNaN
  | (None, Some j) => nth j rkeys CNaN
  | (None, None) => CNaN
  end.

Fixpoint insert_by_key (lkeys rkeys : list cell) (p : pairing)
    (l : list pairing) : list pairing :=
  match l with
  | [] => [p]
  | q :: l' =>
      if String.ltb (astype_str (pairing_key lkeys rkeys q))
                    (astype_str (pairing_key lkeys rkeys p))
      then q :: insert_by_key lkeys rkeys p l'
      else p :: l
  end.

(** The indexers of the join.  ['left'] and ['inner'] follow the left
    frame, ['right'] the right one, ['outer'] sorts by key. *)
Definition join_index (how : join) (lkeys rkeys : list cell)
  : list pairing :=
  match how with
  | JoinLeft => left_pairs true lkeys rkeys
  | JoinInner => left_pairs false lkeys rkeys
  | JoinRight => right_pairs lkeys rkeys
  | JoinOuter =>
      fold_right (insert_by_key lkeys rkeys) []
        (left_pairs true lkeys rkeys ++ right_only lkeys rkeys)
  end.

(** The row [ix] of [rs], or a row of NaN of the given width. *)
Definition take (rs : list (list cell)) (width : nat) (ix : option nat)
  : list cell :=
  match ix with
  | Some i => nth i rs (repeat CNaN width)
  | None => repeat CNaN width
  end.

(** The left cells of a row of the result; a row that only the right
    frame has takes its key from there. *)
Definition left_part (left : DataFrame) (kl : nat) (rkeys : list cell)
    (p : pairing) : list cell :=
  match p with
  | (None, Some j) =>
      set_nth kl (nth j rkeys CNaN)
              (repeat CNaN (List.length (columns left)))
  | (ix, _) => take (rows left) (List.length (columns left)) ix
  end.

(** The right cells of a row of the result, the key left out. *)
Definition right_part (right : DataFrame) (kr : nat) (p : pairing)
  : list cell :=
  take (map (remove_nth kr) (rows right))
       (List.length (columns right) - 1) (snd p).

(** One row of the result: the left cells, then the right cells. *)
Definition joined_row (left right : DataFrame) (kl kr : nat)
    (rkeys : list cell) (p : pairing) : list cell :=
  left_part left kl rkeys p ++ right_part right kr p.

(** [pd.merge(left, right, on=on, how=how, suffixes=('', '_right'))] *)
Definition pd_merge (left right : DataFrame) (on : string) (how : join)
  : result DataFrame :=
  kl <- key_position on left ;;
  kr <- key_position on right ;;
  rlabels <- right_labels (columns left) (remove_nth kr (columns right)) ;;
  let lkeys := column_at kl left in
  let rkeys := column_at kr right in
  Ok {| columns := columns left ++ rlabels;
        rows := map (joined_row left right kl kr rkeys)
                    (join_index how lkeys rkeys) |}.

(** *** [perform_merge] *)

(** [df[col] = values]: every column labelled [col] takes the values; a new
    label adds a column. *)
Definition setitem (df : DataFrame) (col : string) (values : list cell)
  : DataFrame :=
  match positions col (columns df) with
  | [] =>
      {| columns := columns df ++ [col];
         rows := map (fun rv => fst rv ++ [snd rv])
                     (combine (rows df) values) |}
  | ps => fold_left (fun d i => set_column i values d) ps df
  end.

(** Lines 250-251: the key column of a copy, normalized in place. *)
Definition normalize_key (df : DataFrame) (key : string) : result DataFrame :=
  it <- getitem df key ;;
  v <- as_series AttributeError it ;;
  Ok (setitem df key (map (fun c => CStr (merge_key c)) v)).

(** [l[l.index(old)] = new] for an [old] that occurs. *)
Fixpoint replace_first (old new : string) (l : list string) : list string :=
  match l with
  | [] => []
  | c :: t => if String.eqb c old then new :: t
              else c :: replace_first old new t
  end.

(** Lines 266-272: the right columns whose name the left frame has, the key
    apart, are renamed one after the other. *)
Definition rename_conflicts (left_df : DataFrame) (key1 : string)
    (right_columns : list string) (right_df : DataFrame) : DataFrame :=
  fold_left (fun rdf col =>
      if mem col (columns left_df) && negb (String.eqb col key1)
      then rename col (col ++ "_right") rdf
      else rdf)
    right_columns right_df.

(** Lines 276-281: [sample_right[col].tolist()] for every column but the
    key; a label that occurs twice gives a frame, which has no [tolist]. *)
Fixpoint data_check (right_df : DataFrame) (key1 : string)
    (cols : list string) : result unit :=
  match cols with
  | [] => Ok tt
  | col :: cs =>
      if negb (String.eqb col key1) then
        it <- getitem right_df col ;;
        _ <- as_series AttributeError it ;;
        data_check right_df key1 cs
      else data_check right_df key1 cs
  end.

(** Lines 246-282: the two frames handed to [pd.merge].  The key sets of
    lines 254-256 are computed and not used; they cannot raise. *)
Definition prepare (d1 d2 : DataFrame) (key1 key2 : string)
  : result (DataFrame * DataFrame) :=
  left_df <- normalize_key d1 key1 ;;
  right_df <- normalize_key d2 key2 ;;
  let right_columns := columns right_df in
  let right_df :=
    if negb (String.eqb key2 key1) then rename key2 key1 right_df
    else right_df in
  let right_columns :=
    if negb (String.eqb key2 key1)
    then replace_first key2 key1 right_columns
    else right_columns in
  let right_df := rename_conflicts left_df key1 right_columns right_df in
  _ <- data_check right_df key1 (columns right_df) ;;
  Ok (left_df, right_df).

(** Lines 295-302: the columns that came from the right frame are looked at
    again, five at most; [if non_null > 0] raises when [merge_result[col]]
    is a frame, that is when the result has the label twice. *)
Fixpoint inspect (res : DataFrame) (cols : list string) : result unit :=
  match cols with
  | [] => Ok tt
  | col :: cs =>
      if mem col (columns res) then
        it <- getitem res col ;;
        _ <- as_series ValueError it ;;
        inspect res cs
      else inspect res cs
  end.

Definition right_only_cols (left_df res : DataFrame) : list string :=
  filter (fun col => negb (mem col (columns left_df))
                     || endswith col "_right")
         (columns res).

Definition post_check (left_df res : DataFrame) : result unit :=
  inspect res (firstn 5 (right_only_cols left_df res)).

Definition with_merge_result (self : MergeEngine) (res : DataFrame)
  : MergeEngine :=
  {| df1 := df1 self; df2 := df2 self;
     file1_path := file1_path self; file2_path := file2_path self;
     merge_result := Some res;
     detected_keys := detected_keys self |}.

(** [perform_merge(key1, key2, how)]: the engine afterwards and the boolean
    returned.  Line 286 assigns [self.merge_result] as soon as [pd.merge]
    returns; lines 295-302 run after that, inside the same [try]. *)
Definition perform_merge (self : MergeEngine) (key1 key2 : string)
    (how : join) : MergeEngine * bool :=
  match df1 self, df2 self with
  | Some d1, Some d2 =>
      match prepare d1 d2 key1 key2 with
      | Raise _ => (self, false)
      | Ok (left_df, right_df) =>
          match pd_merge left_df right_df key1 how with
          | Raise _ => (self, false)
          | Ok res =>
              let self := with_merge_result self res in
              match post_check left_df res with
              | Ok _ => (self, true)
              | Raise _ => (self, false)
              end
          end
      end
  | _, _ => (self, false)
  end.

(** *** [save_result] *)

(** [save_result(output_path)], given whether writing the file raised; the
    engine is not assigned to. *)
Definition save_result (self : MergeEngine) (write_raises : bool) : bool :=
  match merge_result self with
  | None => false
  | Some _ => negb write_raises
  end.

(** * The rest of [core.py] *)

(** ** [detect_column_patterns] *)

(** [p in s] for two texts. *)
Fixpoint contains (p s : string) : bool :=
  String.prefix p s ||
  match s with
  | EmptyString => false
  | String _ r => contains p r
  end.

Definition tracking_patterns : list string :=
  ["tracking"; "track"; "awb"; "courier"; "shipment"; "spedizione"].

Definition order_patterns : list string :=
  ["order"; "ordine"; "numero"; "reference"; "rif"; "comando"].

Definition customer_patterns : list string :=
  ["customer"; "cliente"; "client"; "conto"; "account"].

Definition status_patterns : list string :=
  ["status"; "stato"; "state"; "delivery"; "consegna"].

(** One of the four loops of lines 395-409: does a pattern occur? *)
Definition any_pattern (patterns : list string) (name_lower : string) : bool :=
  existsb (fun pattern => contains pattern name_lower) patterns.

(** [detect_column_patterns], lines 386-411. *)
Definition detect_column_patterns (column_name : string) : string :=
  let name_lower := strip (lower column_name) in
  if any_pattern tracking_patterns name_lower then "tracking"
  else if any_pattern order_patterns name_lower then "order"
  else if any_pattern customer_patterns name_lower then "customer"
  else if any_pattern status_patterns name_lower then "status"
  else "unknown".

(** ** [os.path.splitext] *)

(** [s.rfind(c)]: the last position of [c], or -1. *)
Fixpoint rfind_from (i : Z) (c : ascii) (s : string) : Z :=
  match s with
  | EmptyString => (-1)%Z
  | String d r =>
      let k := rfind_from (i + 1)%Z c r in
      if (0 <=? k)%Z then k else if Ascii.eqb d c then i else (-1)%Z
  end.

Definition rfind (c : ascii) (s : string) : Z := rfind_from 0%Z c s.

Section Paths.

(** [os.sep] and [os.altsep]: "/" and nothing on POSIX, the backslash and
    "/" on Windows. *)
Variable sep : ascii.
Variable altsep : option ascii.

(** [os.path.splitext(p)]: the extension starts at the last dot of the
    last component, unless only dots come before it there. *)
Definition splitext (p : string) : string * string :=
  let sepIndex :=
    match altsep with
    | Some a => Z.max (rfind sep p) (rfind a p)
    | None => rfind sep p
    end in
  let dotIndex := rfind "." p in
  if (sepIndex <? dotIndex)%Z
     && existsb (fun c => negb (Ascii.eqb c "."))
          (list_ascii_of_string
             (substring (Z.to_nat (sepIndex + 1))
                        (Z.to_nat (dotIndex - sepIndex - 1)) p))
  then (substring 0 (Z.to_nat dotIndex) p,
        substring (Z.to_nat dotIndex)
                  (String.length p - Z.to_nat dotIndex) p)
  else (p, "").

(** *** [load_file], lines 38-58 *)

(** What [pd.read_csv] does with one encoding. *)
Inductive csv_read : Type :=
| CsvFrame (df : DataFrame)
| CsvUnicodeDecodeError
| CsvRaises.

(** [pd.read_excel(file_path, sheet_name=0)] *)
Variable read_excel : string -> result DataFrame.

(** [pd.read_csv(file_path, sep=..., encoding=...)], the separator first. *)
Variable read_csv : string -> string -> string -> csv_read.

(** Lines 44-52: the encodings are tried in turn; the loop goes on only
    after a [UnicodeDecodeError]. *)
Fixpoint read_csv_encodings (file_path : string) (encodings : list string)
  : read_outcome :=
  match encodings with
  | [] => ReadRefused
  | encoding :: rest =>
      match read_csv file_path "," encoding with
      | CsvFrame df => ReadFrame df
      | CsvUnicodeDecodeError => read_csv_encodings file_path rest
      | CsvRaises => ReadRaises
      end
  end.

(** Lines 38-58: the reader is chosen by the extension in lower case. *)
Definition read_file (file_path : string) : read_outcome :=
  let file_ext := lower (snd (splitext file_path)) in
  if mem file_ext [".xlsx"; ".xls"] then
    match read_excel file_path with
    | Ok df => ReadFrame df
    | Raise _ => ReadRaises
    end
  else if String.eqb file_ext ".csv" then
    read_csv_encodings file_path ["utf-8"; "utf-16"; "windows-1252"]
  else if String.eqb file_ext ".txt" then
    match read_csv file_path (String (ascii_of_nat 9) "") "utf-8" with
    | CsvFrame df => ReadFrame df
    | _ => ReadRaises
    end
  else ReadRefused.

(** [load_file(file_path, file_number)] with the readers of the section. *)
Definition load_file_at (self : MergeEngine) (file_path : string)
    (file_number : Z) : MergeEngine * bool :=
  load_file self file_path (read_file file_path) file_number.

(** *** [save_result], lines 327-339 *)

Inductive file_format : Type := Excel | Csv.

(** The writer lines 331-339 call, and the path it is given. *)
Definition save_target (output_path : string) : file_format * string :=
  let file_ext := lower (snd (splitext output_path)) in
  if String.eqb file_ext ".xlsx" then (Excel, output_path)
  else if String.eqb file_ext ".csv" then (Csv, output_path)
  else if negb (endswith output_path ".xlsx")
       then (Excel, (output_path ++ ".xlsx")%string)
       else (Excel, output_path).

(** [save_result(output_path)]: [writer] tells whether [to_excel] or
    [to_csv] raises for a frame and a path.  The second component is what
    was handed to the writer. *)
Definition save_result_to (self : MergeEngine) (output_path : string)
    (writer : file_format -> string -> DataFrame -> bool)
  : bool * option (file_format * string) :=
  match merge_result self with
  | None => (false, None)
  | Some res =>
      let target := save_target output_path in
      (save_result self (writer (fst target) (snd target) res), Some target)
  end.

End Paths.

(** ** [get_preview_data] *)

(** [df.head(n)]: the first [n] rows, all but the last [-n] for a negative
    [n]. *)
Definition head (n : Z) (df : DataFrame) : DataFrame :=
  {| columns := columns df;
     rows := if (0 <=? n)%Z then firstn (Z.to_nat n) (rows df)
             else firstn (len df - Z.to_nat (- n)) (rows df) |}.

(** [dict(pairs)]: a later value for a key replaces the earlier one, the
    key keeps its place. *)
Fixpoint dict_set (k : string) (v : cell) (d : list (string * cell))
  : list (string * cell) :=
  match d with
  | [] => [(k, v)]
  | (k', v') :: t =>
      if String.eqb k' k then (k', v) :: t else (k', v') :: dict_set k v t
  end.

Definition dict_of (pairs : list (string * cell)) : list (string * cell) :=
  fold_left (fun d kv => dict_set (fst kv) (snd kv) d) pairs [].

(** [d[k]] *)
Fixpoint dict_get (k : string) (d : list (string * cell)) : option cell :=
  match d with
  | [] => None
  | (k', v) :: t => if String.eqb k' k then Some v else dict_get k t
  end.

(** [df.to_dict('records')]: one dictionary per row. *)
Definition to_records (df : DataFrame) : list (list (string * cell)) :=
  map (fun row => dict_of (combine (columns df) row)) (rows df).

(** One entry of the dictionary [get_preview_data] returns. *)
Record file_preview : Type := {
  pv_name : string;
  pv_rows : nat;
  pv_columns : nat;
  pv_column_names : list string;
  pv_preview : list (list (string * cell))
}.

Section Preview.

(** [os.path.basename] *)
Variable basename : string -> string.

Definition preview_of (path : string) (max_rows : Z) (df : DataFrame)
  : file_preview :=
  {| pv_name := basename path;
     pv_rows := len df;
     pv_columns := List.length (columns df);
     pv_column_names := columns df;
     pv_preview := to_records (head max_rows df) |}.

(** [get_preview_data(max_rows)]: the entries ['file1'] and ['file2'], each
    present when the file is loaded. *)
Definition get_preview_data (self : MergeEngine) (max_rows : Z)
  : option file_preview * option file_preview :=
  (option_map (preview_of (file1_path self) max_rows) (df1 self),
   option_map (preview_of (file2_path self) max_rows) (df2 self)).

End Preview.

(** ** The two files exchanged *)

(** The engine with the two files in each other's place. *)
Definition swap_files (self : MergeEngine) : MergeEngine :=
  {| df1 := df2 self; df2 := df1 self;
     file1_path := file2_path self; file2_path := file1_path self;
     merge_result := merge_result self;
     detected_keys := detected_keys self |}.

(** A report with the statistics of the two files exchanged. *)
Definition swap_report (r : report) : report :=
  {| file1_total := file2_total r; file1_unique := file2_unique r;
     file1_uniqueness := file2_uniqueness r;
     file2_total := file1_total r; file2_unique := file1_unique r;
     file2_uniqueness := file1_uniqueness r;
     common_values := common_values r;
     match_ratio_file1 := match_ratio_file2 r;
     match_ratio_file2 := match_ratio_file1 r;
     warnings := warnings r |}.

(** Every label of a frame the engine holds is trimmed. *)
Definition labels_trimmed (self : MergeEngine) : Prop :=
  forall d, df1 self = Some d \/ df2 self = Some d ->
            forall c, In c (columns d) -> strip c = c.

(** The pair of column names of a candidate. *)
Definition names (c : candidate) : string * string :=
  (cand_col1 c, cand_col2 c).



(** * Definitions for the statements *)

(** ** Texts *)

(** A text that does not begin with white space. *)
Definition starts_clean (s : string) : Prop :=
  match s with
  | EmptyString => True
  | String c _ => is_space c = false
  end.

(** The 256 characters. *)
Definition all_ascii : list ascii := map ascii_of_nat (seq 0 256).


(** A text of ASCII characters (codes below 128): on these Python's
    [upper], [lower] and [strip] are the ones of the module [Text]. *)
Definition ascii_text (s : string) : bool :=
  forallb (fun c => nat_of_ascii c <? 128) (list_ascii_of_string s).

(** ** Frames and rows *)

(** Every row has one cell per label. *)
Definition well_formed (df : DataFrame) : Prop :=
  Forall (fun row => List.length row = List.length (columns df)) (rows df).

(** The cell lines 250-251 put in the key column. *)
Definition norm_cell (c : cell) : cell := CStr (merge_key c).

(** The cell a pairing takes from a column [s] of one side. *)
Definition from_side (s : list cell) (ix : option nat) : cell :=
  match ix with
  | Some i => nth i s CNaN
  | None => CNaN
  end.

(** The position a label keeps when position [k] is removed. *)
Definition shift (k p : nat) : nat := if p <? k then p else p - 1.

(** The right frame before the conflicts are renamed. *)
Definition right_start (d2 : DataFrame) (key1 key2 : string) (p2 : nat)
  : DataFrame :=
  let r0 := set_column p2 (map norm_cell (column_at p2 d2)) d2 in
  if negb (String.eqb key2 key1) then rename key2 key1 r0 else r0.

(** The list [right_columns] of lines 259-263. *)
Definition right_snapshot (d2 : DataFrame) (key1 key2 : string)
  : list string :=
  if negb (String.eqb key2 key1)
  then replace_first key2 key1 (columns d2) else columns d2.

(** ** Detection *)

(** [a] is not below [b] for the sort key (score, number of matches). *)
Definition key_ge (a b : candidate) : Prop :=
  (cand_score b < cand_score a)%Q \/
  ((cand_score a == cand_score b)%Q /\ cand_matches b <= cand_matches a).

(** The test of lines 100-101 for one label. *)
Definition admits (df : DataFrame) (col : string) : bool :=
  match getitem df col with
  | Ok (Series v) => negb (Qle_bool (ratio (nunique v) (len df)) (7 # 10))
  | _ => false
  end.

(** The ratio as the specification words it: distinct normalized tokens
    that are not absent, over the number of rows. *)
Definition spec_uniqueness_ratio (df : DataFrame) (v : list cell) : Q :=
  ratio (List.length (token_set v)) (len df).

(** ** Calls on the engine *)

(** One call on the engine, with what the outside world answers. *)
Inductive operation : Type :=
| LoadFile (file_path : string) (read : read_outcome) (file_number : Z)
| DetectKeys (min_match_ratio : Q)
| ValidateKeys (key1 key2 : string)
| PerformMerge (key1 key2 : string) (how : join)
| SaveResult (write_raises : bool).

Section Calls.

Variable fuzz_ratio : string -> string -> Z.

(** The engine after one call; a call that raises or only reads leaves it
    as it was. *)
Definition step (self : MergeEngine) (op : operation) : MergeEngine :=
  match op with
  | LoadFile file_path read file_number =>
      fst (load_file self file_path read file_number)
  | DetectKeys m =>
      match detect_merge_keys fuzz_ratio self m with
      | Ok (self', _) => self'
      | Raise _ => self
      end
  | ValidateKeys _ _ => self
  | PerformMerge key1 key2 how => fst (perform_merge self key1 key2 how)
  | SaveResult _ => self
  end.

(** A fresh engine after a sequence of calls. *)
Definition run (ops : list operation) : MergeEngine :=
  fold_left step ops init.

End Calls.

(** Every frame the engine holds has rows and columns. *)
Definition frames_nonempty (self : MergeEngine) : Prop :=
  forall d, df1 self = Some d \/ df2 self = Some d -> empty d = false.

(** ** Example frames and engines *)

(** An engine with both files loaded and nothing else done. *)
Definition loaded (a b : DataFrame) : MergeEngine :=
  {| df1 := Some a; df2 := Some b; file1_path := "a.csv";
     file2_path := "b.csv"; merge_result := None; detected_keys := [] |}.

(** The two files of the example of the specification: keys that differ
    in letter case only. *)
Definition ex_left_ids : DataFrame :=
  {| columns := ["id"; "name"];
     rows := [[CStr "A1"; CStr "x"]; [CStr "A2"; CStr "y"]] |}.

Definition ex_right_ids : DataFrame :=
  {| columns := ["id"; "status"];
     rows := [[CStr "a1"; CStr "ok"]; [CStr "A3"; CStr "bad"]] |}.

(** Columns whose values differ in letter case only. *)
Definition ex_mixed_case : DataFrame :=
  {| columns := ["code"]; rows := [[CStr "ab"]; [CStr "AB"]] |}.

Definition ex_case_variants : DataFrame :=
  {| columns := ["code"]; rows := [[CStr "ab"]; [CStr "AB"]; [CStr "cd"]] |}.

(** The columns a chain of merges with the same right file produces. *)
Definition ex_chain_left : DataFrame :=
  {| columns := ["id"; "status"; "status_right"; "status_right_right"];
     rows := [[CStr "1"; CStr "a"; CStr "b"; CStr "c"]] |}.

Definition ex_status_right : DataFrame :=
  {| columns := ["id"; "status"]; rows := [[CStr "1"; CStr "z"]] |}.

Definition ex_status_left : DataFrame :=
  {| columns := ["id"; "status"; "status_right"];
     rows := [[CStr "1"; CStr "a"; CStr "b"]] |}.

Definition ex_status_plain : DataFrame :=
  {| columns := ["id"; "status"]; rows := [[CStr "1"; CStr "a"]] |}.

(** Keys that are distinct as stored and equal once ".0" is removed. *)
Definition ex_one_key : DataFrame :=
  {| columns := ["id"; "name"]; rows := [[CStr "K1"; CStr "x"]] |}.

Definition ex_two_keys : DataFrame :=
  {| columns := ["id"; "price"];
     rows := [[CStr "K1"; CInt 5]; [CStr "K1.0"; CInt 7]] |}.

(** An engine that holds the result of an earlier merge. *)
Definition ex_merged_before : MergeEngine :=
  {| df1 := Some ex_chain_left; df2 := Some ex_status_right;
     file1_path := "merged.csv"; file2_path := "status.csv";
     merge_result := Some ex_status_left; detected_keys := [] |}.

(** * Properties *)

(** ** Characters *)

Module TextFacts.

Lemma all_ascii_complete (c : ascii) : In c all_ascii.
Proof.
  unfold all_ascii. rewrite <- (ascii_nat_embedding c).
  apply in_map, in_seq. pose proof (nat_ascii_bounded c). lia.
Qed.

Lemma ascii_forall (P : ascii -> bool) :
  forallb P all_ascii = true -> forall c, P c = true.
Proof.
  intros H c. rewrite forallb_forall in H. apply H, all_ascii_complete.
Qed.


Lemma is_space_upper (c : ascii) : is_space (upper_ascii c) = is_space c.
Proof.
  apply Bool.eqb_prop.
  revert c. apply ascii_forall. vm_compute. reflexivity.
Qed.

Lemma is_dot_upper (c : ascii) : is_dot (upper_ascii c) = is_dot c.
Proof.
  apply Bool.eqb_prop.
  revert c. apply ascii_forall. vm_compute. reflexivity.
Qed.

Lemma is_zero_upper (c : ascii) : is_zero (upper_ascii c) = is_zero c.
Proof.
  apply Bool.eqb_prop.
  revert c. apply ascii_forall. vm_compute. reflexivity.
Qed.

Lemma upper_ascii_idem (c : ascii) :
  upper_ascii (upper_ascii c) = upper_ascii c.
Proof.
  apply Ascii.eqb_eq.
  revert c. apply ascii_forall. vm_compute. reflexivity.
Qed.





End TextFacts.

(** ** Strings *)

Module StringFacts.
Import TextFacts.

(** Induction that follows [replace_dot0]: two characters at a time. *)
Lemma string_ind2 (P : string -> Prop) :
  P EmptyString ->
  (forall c, P (String c EmptyString)) ->
  (forall c d r, P r -> P (String d r) -> P (String c (String d r))) ->
  forall s, P s.
Proof.
  intros H0 H1 H2 s.
  assert (K : P s /\ forall c, P (String c s)).
  { induction s as [|d r [IHr IHc]].
    - split; [exact H0 | exact H1].
    - split; [apply IHc | intros c; apply H2; [exact IHr | apply IHc]]. }
  apply K.
Qed.

Lemma upper_idem (s : string) : upper (upper s) = upper s.
Proof.
  induction s as [|c r IH]; simpl; [reflexivity|].
  unfold upper in *. simpl. now rewrite upper_ascii_idem, IH.
Qed.

Lemma lstrip_upper (s : string) : lstrip (upper s) = upper (lstrip s).
Proof.
  induction s as [|c r IH]; [reflexivity|].
  unfold upper in *. simpl. rewrite is_space_upper.
  destruct (is_space c); [exact IH | reflexivity].
Qed.

Lemma rstrip_upper (s : string) : rstrip (upper s) = upper (rstrip s).
Proof.
  induction s as [|c r IH]; [reflexivity|].
  unfold upper in *. simpl. rewrite IH, is_space_upper.
  destruct (rstrip r); simpl; [destruct (is_space c)|]; reflexivity.
Qed.

Lemma strip_upper (s : string) : strip (upper s) = upper (strip s).
Proof.
  unfold strip. now rewrite lstrip_upper, rstrip_upper.
Qed.

Lemma replace_dot0_cons2 (c d : ascii) (r : string) :
  replace_dot0 (String c (String d r)) =
  if is_dot c && is_zero d then replace_dot0 r
  else String c (replace_dot0 (String d r)).
Proof. reflexivity. Qed.



Lemma has_dot0_upper (s : string) : has_dot0 (upper s) = has_dot0 s.
Proof.
  induction s as [|c r IH]; [reflexivity|].
  unfold upper in *. destruct r as [|d r']; [reflexivity|].
  simpl in *. now rewrite is_dot_upper, is_zero_upper, IH.
Qed.

Lemma has_dot0_tail (c : ascii) (r : string) :
  has_dot0 (String c r) = false -> has_dot0 r = false.
Proof.
  destruct r as [|d r']; [reflexivity|].
  cbn [has_dot0]. intros H. now apply orb_false_iff in H.
Qed.

Lemma replace_dot0_id (s : string) :
  has_dot0 s = false -> replace_dot0 s = s.
Proof.
  induction s as [|c r IH]; [reflexivity|].
  intros H. pose proof (has_dot0_tail _ _ H) as Hr.
  destruct r as [|d r']; [reflexivity|].
  cbn [has_dot0] in H. apply orb_false_iff in H. destruct H as [H _].
  rewrite replace_dot0_cons2, H. now rewrite (IH Hr).
Qed.

Lemma has_dot0_lstrip (s : string) :
  has_dot0 s = false -> has_dot0 (lstrip s) = false.
Proof.
  induction s as [|c r IH]; [reflexivity|].
  intros H. cbn [lstrip]. destruct (is_space c); [|exact H].
  apply IH. exact (has_dot0_tail _ _ H).
Qed.

Lemma rstrip_head (s : string) (d : ascii) (r : string) :
  rstrip s = String d r -> exists r0, s = String d r0.
Proof.
  destruct s as [|c s']; [discriminate|].
  cbn [rstrip]. destruct (rstrip s').
  - destruct (is_space c); [discriminate|].
    intros H. inversion H. subst. now exists s'.
  - intros H. inversion H. subst. now exists s'.
Qed.

Lemma has_dot0_rstrip (s : string) :
  has_dot0 s = false -> has_dot0 (rstrip s) = false.
Proof.
  induction s as [|c r IH]; [reflexivity|].
  intros H. pose proof (IH (has_dot0_tail _ _ H)) as Hr.
  cbn [rstrip]. destruct (rstrip r) as [|d r'] eqn:E.
  - destruct (is_space c); reflexivity.
  - destruct (rstrip_head _ _ _ E) as [r0 ->].
    cbn [has_dot0] in H |- *. apply orb_false_iff in H. destruct H as [H _].
    rewrite H. exact Hr.
Qed.

Lemma has_dot0_strip (s : string) :
  has_dot0 s = false -> has_dot0 (strip s) = false.
Proof.
  intros H. unfold strip. now apply has_dot0_rstrip, has_dot0_lstrip.
Qed.

Lemma lstrip_starts_clean (s : string) : starts_clean (lstrip s).
Proof.
  induction s as [|c r IH]; simpl; [exact I|].
  destruct (is_space c) eqn:E; [exact IH | exact E].
Qed.

Lemma lstrip_clean (s : string) : starts_clean s -> lstrip s = s.
Proof.
  destruct s as [|c r]; simpl; [reflexivity|]. now intros ->.
Qed.

Lemma rstrip_starts_clean (s : string) :
  starts_clean s -> starts_clean (rstrip s).
Proof.
  destruct s as [|c r]; simpl; [trivial|]. intros H.
  destruct (rstrip r); simpl; [rewrite H|]; simpl; exact H.
Qed.

Lemma rstrip_idem (s : string) : rstrip (rstrip s) = rstrip s.
Proof.
  induction s as [|c r IH]; [reflexivity|].
  cbn [rstrip]. destruct (rstrip r) as [|d r'] eqn:E.
  - destruct (is_space c) eqn:Ec; [reflexivity|].
    cbn [rstrip]. now rewrite Ec.
  - cbn [rstrip] in IH |- *.
    change (rstrip (String d r')) with
      (match rstrip r' with
       | EmptyString => if is_space d then EmptyString else String d EmptyString
       | String a b => String d (String a b)
       end) in IH.
    rewrite IH. reflexivity.
Qed.

Lemma strip_idem (s : string) : strip (strip s) = strip s.
Proof.
  unfold strip.
  rewrite (lstrip_clean (rstrip (lstrip s))).
  - apply rstrip_idem.
  - apply rstrip_starts_clean, lstrip_starts_clean.
Qed.

End StringFacts.

(** ** Texts that differ only in letter case *)

Module CaseFacts.
Import TextFacts StringFacts.














End CaseFacts.

(** ** The normalizer (C4) *)

(** Lengths: trimming and removing ".0" never lengthen a text, and leave
    the length unchanged only when they leave the text unchanged. *)
Module LengthFacts.
Import TextFacts StringFacts.

Lemma length_upper (s : string) : String.length (upper s) = String.length s.
Proof. induction s as [|c r IH]; [reflexivity|]. cbn. now rewrite <- IH. Qed.

Lemma length_replace_dot0 (s : string) :
  String.length (replace_dot0 s) <= String.length s.
Proof.
  induction s as [|c|c d r IH1 IH2] using string_ind2;
    [cbn; lia | cbn; lia |].
  rewrite replace_dot0_cons2.
  destruct (is_dot c && is_zero d); cbn [String.length] in *; lia.
Qed.

Lemma length_replace_dot0_lt (s : string) :
  has_dot0 s = true -> String.length (replace_dot0 s) < String.length s.
Proof.
  induction s as [|c|c d r IH1 IH2] using string_ind2;
    [discriminate | discriminate |].
  intros H. rewrite replace_dot0_cons2.
  change (has_dot0 (String c (String d r)))
    with ((is_dot c && is_zero d) || has_dot0 (String d r)) in H.
  destruct (is_dot c && is_zero d).
  - pose proof (length_replace_dot0 r). cbn [String.length]. lia.
  - cbn [orb] in H. specialize (IH2 H). cbn [String.length] in *. lia.
Qed.

Lemma length_lstrip (s : string) : String.length (lstrip s) <= String.length s.
Proof.
  induction s as [|c r IH]; [cbn; lia|].
  cbn [lstrip]. destruct (is_space c); cbn [String.length]; lia.
Qed.

Lemma lstrip_length_id (s : string) :
  String.length (lstrip s) = String.length s -> lstrip s = s.
Proof.
  destruct s as [|c r]; [reflexivity|].
  cbn [lstrip]. destruct (is_space c); [|reflexivity].
  intros H. pose proof (length_lstrip r). cbn [String.length] in H. lia.
Qed.

Lemma length_rstrip (s : string) : String.length (rstrip s) <= String.length s.
Proof.
  induction s as [|c r IH]; [cbn; lia|].
  cbn [rstrip]. destruct (rstrip r) as [|d r'].
  - destruct (is_space c); cbn [String.length]; lia.
  - cbn [String.length] in *. lia.
Qed.

Lemma rstrip_length_id (s : string) :
  String.length (rstrip s) = String.length s -> rstrip s = s.
Proof.
  induction s as [|c r IH]; [reflexivity|].
  cbn [rstrip]. pose proof (length_rstrip r) as L.
  destruct (rstrip r) as [|d r'] eqn:E.
  - destruct (is_space c); cbn [String.length] in *; intros H; [lia|].
    destruct r; [reflexivity | cbn [String.length] in H; lia].
  - cbn [String.length] in *. intros H. f_equal. apply IH. lia.
Qed.

Lemma length_strip (s : string) : String.length (strip s) <= String.length s.
Proof.
  unfold strip. pose proof (length_rstrip (lstrip s)).
  pose proof (length_lstrip s). lia.
Qed.

Lemma strip_length_id (s : string) :
  String.length (strip s) = String.length s -> strip s = s.
Proof.
  unfold strip. intros H.
  pose proof (length_rstrip (lstrip s)). pose proof (length_lstrip s).
  assert (E : lstrip s = s) by (apply lstrip_length_id; lia).
  rewrite E in *. now apply rstrip_length_id.
Qed.

End LengthFacts.

Section Normalizer.
Import TextFacts StringFacts LengthFacts.

(** C4, the claim as it is written fails: the detector's normalization
    (trim, remove every ".0", upper case) is not idempotent.  The text
    "1..00" becomes "1.0", and "1.0" becomes "1". *)
Lemma token_not_idempotent :
  token (CStr (token (CStr "1..00"))) <> token (CStr "1..00").
Proof. vm_compute. discriminate. Qed.

(** C4, amended: the detector's normalization is idempotent,
    [normalize(normalize(x)) = normalize(x)], exactly on the inputs whose
    token [normalize(x)] contains no ".0" and has no white space at either
    end.  This covers every input whose text has no ".0", and also inputs
    such as "12.0" and " k1.0 " on which the ".0" rule acts. *)
Theorem token_idempotent (x : cell) :
  token (CStr (token x)) = token x <->
  has_dot0 (token x) = false /\ strip (token x) = token x.
Proof.
  assert (U : upper (token x) = token x) by (unfold token; apply upper_idem).
  unfold token at 1. cbn [astype_str]. split.
  - intros H.
    assert (L : String.length (upper (replace_dot0 (strip (token x))))
                = String.length (token x)) by now rewrite H.
    rewrite length_upper in L.
    pose proof (length_replace_dot0 (strip (token x))) as L1.
    pose proof (length_strip (token x)) as L2.
    assert (S : strip (token x) = token x) by (apply strip_length_id; lia).
    split; [|exact S].
    rewrite S in L.
    destruct (has_dot0 (token x)) eqn:D; [|reflexivity].
    pose proof (length_replace_dot0_lt _ D). lia.
  - intros [D S]. rewrite S, (replace_dot0_id _ D). exact U.
Qed.

Lemma token_idempotent_witness :
  token (CStr (token (CStr " k1.0 "))) = token (CStr " k1.0 ").
Proof.
  apply (proj2 (token_idempotent (CStr " k1.0 "))). split; reflexivity.
Defined.

(** X1: the helper [normalize_tracking_code], which trims and upper-cases
    without touching ".0", is idempotent on every input. *)
Lemma normalize_tracking_code_idempotent (x : cell) :
  normalize_tracking_code (CStr (normalize_tracking_code x))
  = normalize_tracking_code x.
Proof.
  assert (E0 : normalize_tracking_code (CStr "") = "") by reflexivity.
  assert (K : forall s, normalize_tracking_code (CStr (upper (strip s)))
                        = upper (strip s)).
  { intros s. unfold normalize_tracking_code. cbn [isna orb astype_str].
    destruct (cell_eq_dec (CStr (upper (strip s))) (CStr "")) as [E|_].
    - inversion E as [E']. now rewrite E'.
    - now rewrite strip_upper, strip_idem, upper_idem. }
  unfold normalize_tracking_code at 2 3.
  destruct (isna x || (if cell_eq_dec x (CStr "") then true else false));
    [exact E0 | apply K].
Qed.

End Normalizer.

(** ** Frames *)

Module FrameFacts.

Lemma mem_In (x : string) (l : list string) : mem x l = true <-> In x l.
Proof.
  unfold mem. rewrite existsb_exists. split.
  - intros (y & Hy & E). apply String.eqb_eq in E. now subst.
  - intros H. exists x. split; [exact H | apply String.eqb_refl].
Qed.

Lemma mem_false (x : string) (l : list string) :
  mem x l = false <-> ~ In x l.
Proof.
  rewrite <- mem_In. destruct (mem x l); split; intros; congruence.
Qed.

Lemma positions_from_In (i : nat) (col : string) (cols : list string)
    (p : nat) :
  In p (positions_from i col cols) <->
  i <= p /\ nth_error cols (p - i) = Some col.
Proof.
  revert i. induction cols as [|c cs IH]; intros i; cbn [positions_from].
  - split; [intros [] | intros [_ H]]. now destruct (p - i).
  - destruct (String.eqb_spec c col) as [->|Hne].
    + cbn [In]. rewrite IH. split.
      * intros [<- | [Hle H]].
        -- split; [lia|]. now rewrite Nat.sub_diag.
        -- split; [lia|]. replace (p - i) with (S (p - S i)) by lia.
           exact H.
      * intros [Hle H]. destruct (Nat.eq_dec i p) as [->|Hn]; [now left|].
        right. split; [lia|].
        replace (p - i) with (S (p - S i)) in H by lia. exact H.
    + rewrite IH. split.
      * intros [Hle H]. split; [lia|].
        replace (p - i) with (S (p - S i)) by lia. exact H.
      * intros [Hle H]. destruct (Nat.eq_dec i p) as [->|Hn].
        -- rewrite Nat.sub_diag in H. cbn in H. congruence.
        -- split; [lia|].
           replace (p - i) with (S (p - S i)) in H by lia. exact H.
Qed.

Lemma positions_In (col : string) (cols : list string) (p : nat) :
  In p (positions col cols) <-> nth_error cols p = Some col.
Proof.
  unfold positions. rewrite positions_from_In, Nat.sub_0_r.
  split; [now intros [_ H] | intros H; split; [lia | exact H]].
Qed.

Lemma positions_nil (col : string) (cols : list string) :
  positions col cols = [] <-> ~ In col cols.
Proof.
  split.
  - intros E H. apply In_nth_error in H. destruct H as [p H].
    apply positions_In in H. now rewrite E in H.
  - intros H. destruct (positions col cols) as [|p ps] eqn:E; [reflexivity|].
    exfalso. apply H. apply (nth_error_In cols p).
    apply positions_In. rewrite E. now left.
Qed.

Lemma positions_from_none (i : nat) (col : string) (cols : list string) :
  ~ In col cols -> positions_from i col cols = [].
Proof.
  revert i. induction cols as [|c cs IH]; intros i H; [reflexivity|].
  cbn [positions_from]. destruct (String.eqb_spec c col) as [->|Hne].
  - exfalso. apply H. now left.
  - apply IH. intros K. apply H. now right.
Qed.

(** A label of a frame without repeated labels has one position. *)
Lemma positions_from_NoDup (i : nat) (col : string) (cols : list string) :
  NoDup cols -> In col cols -> exists p, positions_from i col cols = [p].
Proof.
  revert i. induction cols as [|c cs IH]; intros i Hnd Hin; [destruct Hin|].
  inversion Hnd as [|? ? Hc Hcs]. subst. cbn [positions_from].
  destruct (String.eqb_spec c col) as [->|Hne].
  - exists i. now rewrite positions_from_none.
  - destruct Hin as [E|Hin]; [congruence|]. now apply IH.
Qed.

Lemma getitem_Series (df : DataFrame) (col : string) (v : list cell) :
  getitem df col = Ok (Series v) ->
  exists p, positions col (columns df) = [p] /\ v = column_at p df.
Proof.
  unfold getitem. destruct (positions col (columns df)) as [|p [|q ps]];
    intros H; inversion H. now exists p.
Qed.

Lemma getitem_NoDup (df : DataFrame) (col : string) :
  NoDup (columns df) -> In col (columns df) ->
  exists p, positions col (columns df) = [p] /\
            getitem df col = Ok (Series (column_at p df)).
Proof.
  intros Hnd Hin. destruct (positions_from_NoDup 0 col _ Hnd Hin) as [p E].
  exists p. unfold getitem, positions. now rewrite E.
Qed.

Lemma column_at_length (p : nat) (df : DataFrame) :
  List.length (column_at p df) = len df.
Proof. unfold column_at, len. apply length_map. Qed.

Lemma nth_set_nth {A : Type} (p : nat) (x d : A) (l : list A) :
  p < List.length l -> nth p (set_nth p x l) d = x.
Proof.
  revert p. induction l as [|h t IH]; intros p H; [inversion H|].
  destruct p; [reflexivity|]. cbn. apply IH. cbn in H. lia.
Qed.

Lemma column_at_set_column (p : nat) (vals : list cell) (df : DataFrame) :
  well_formed df -> p < List.length (columns df) ->
  List.length vals = len df ->
  column_at p (set_column p vals df) = vals.
Proof.
  unfold well_formed, column_at, set_column, len. cbn [rows columns].
  intros Hwf Hp. generalize (rows df) Hwf. clear Hwf.
  intros rs. revert vals. induction rs as [|r rs IH]; intros vals Hwf Hlen.
  - destruct vals; [reflexivity | discriminate].
  - destruct vals as [|v vals]; [discriminate|].
    inversion Hwf as [|? ? Hr Hrs]. subst. cbn.
    rewrite nth_set_nth by lia. f_equal. apply IH; [exact Hrs|].
    cbn in Hlen. lia.
Qed.


End FrameFacts.

(** ** Validation (C9, C5) *)

Section Validation.
Import FrameFacts.

(** C9: when a file is not loaded, or [key1] is not a column of the first
    file, or [key2] is not a column of the second, [validate_merge_keys]
    returns the failure outcome with a reason that is not empty.  The
    function is total: an exception of its body is turned into a failure
    outcome as well. *)
Theorem validate_reports_missing (self : MergeEngine) (key1 key2 : string) :
  (df1 self = None \/ df2 self = None \/
   (exists d, df1 self = Some d /\ ~ In key1 (columns d)) \/
   (exists d, df2 self = Some d /\ ~ In key2 (columns d))) ->
  exists reason,
    validate_merge_keys self key1 key2 = Invalid reason /\
    reason <> "" /\
    (reason = "Files not loaded" \/
     reason = ("Column '" ++ key1 ++ "' not found in first file")%string \/
     reason = ("Column '" ++ key2 ++ "' not found in second file")%string).
Proof.
  unfold validate_merge_keys.
  intros H.
  destruct (df1 self) as [d1|] eqn:E1; [|eexists; repeat split;
    [discriminate | now left]].
  destruct (df2 self) as [d2|] eqn:E2; [|eexists; repeat split;
    [discriminate | now left]].
  destruct (mem key1 (columns d1)) eqn:M1; cbn [negb].
  2:{ eexists. repeat split; [discriminate | right; now left]. }
  destruct (mem key2 (columns d2)) eqn:M2; cbn [negb].
  2:{ eexists. repeat split; [discriminate | right; now right]. }
  exfalso. apply mem_In in M1, M2.
  destruct H as [H|[H|[(d & H & K)|(d & H & K)]]]; try discriminate;
    inversion H; subst; contradiction.
Qed.

Lemma validate_reports_missing_witness :
  exists reason,
    validate_merge_keys (loaded ex_left_ids ex_right_ids) "id" "state"
    = Invalid reason /\ reason <> "".
Proof.
  destruct (validate_reports_missing (loaded ex_left_ids ex_right_ids)
              "id" "state") as (reason & H & Hne & _).
  - right. right. right. exists ex_right_ids. split; [reflexivity|].
    cbn. intros [H|[H|[]]]; discriminate.
  - exists reason. now split.
Defined.

End Validation.

Module SetFacts.
Import FrameFacts.

Lemma intersection_self (l : list string) : intersection l l = l.
Proof.
  unfold intersection. apply forallb_filter_id, forallb_forall.
  intros x H. now apply mem_In.
Qed.

Lemma to_set_map_inj (f : string -> string) (l : list string) :
  (forall a b, In a l -> In b l -> f a = f b -> a = b) ->
  to_set (map f l) = map f (to_set l).
Proof.
  unfold to_set. induction l as [|a l IH]; intros Hinj; [reflexivity|].
  cbn [map nodup].
  assert (IH' : nodup string_dec (map f l) = map f (nodup string_dec l)).
  { apply IH. intros x y Hx Hy. apply Hinj; now right. }
  destruct (in_dec string_dec (f a) (map f l)) as [Hin|Hin];
    destruct (in_dec string_dec a l) as [Ha|Ha].
  - exact IH'.
  - exfalso. apply in_map_iff in Hin. destruct Hin as (b & Hb & Hbl).
    apply Ha. rewrite (Hinj a b); [exact Hbl | now left | now right | easy].
  - exfalso. apply Hin. now apply in_map.
  - cbn [map]. now rewrite IH'.
Qed.

Lemma to_set_inhabited (l : list string) :
  l <> [] -> 0 < List.length (to_set l).
Proof.
  intros H. destruct (to_set l) as [|x t] eqn:E; [|cbn; lia].
  exfalso. destruct l as [|a l]; [now apply H|].
  assert (K : In a (to_set (a :: l))) by (apply nodup_In; now left).
  now rewrite E in K.
Qed.

Lemma ratio_self (n : nat) : 0 < n -> (ratio n n == 1)%Q.
Proof.
  intros H. unfold ratio, Qeq. cbn [Qnum Qden].
  assert (K : Z.pos (Pos.of_nat n) = Z.of_nat n).
  { rewrite <- (Nat2Pos.id n) at 2 by lia. now rewrite positive_nat_Z. }
  rewrite K. lia.
Qed.

End SetFacts.

Section SelfMerge.
Import FrameFacts SetFacts.

(** C5, the claim as it is written fails: a column that holds "ab" and "AB"
    has two distinct values and one common upper-cased value, so the
    self-merge reports a match ratio of 1/2. *)
Lemma self_merge_mixed_case :
  exists r,
    validate_merge_keys (loaded ex_mixed_case ex_mixed_case) "code" "code"
    = Valid r /\
    ~ (match_ratio_file1 r == 1)%Q /\
    common_values r <> file1_unique r.
Proof.
  eexists. split; [reflexivity|].
  split; vm_compute; intros H; discriminate H.
Qed.

(** C5, amended: for a loaded frame and a label [c] of exactly one of its
    columns, if the column has a value that is kept for the statistics
    (not empty and not "nan" once trimmed) and no two distinct kept values
    have the same upper case, then the self-merge reports both match ratios
    equal to 1 and [common_values = file1_unique = file2_unique]. *)
Theorem self_merge_full_match (self : MergeEngine) (d : DataFrame)
    (c : string) (v : list cell) :
  df1 self = Some d -> df2 self = Some d ->
  getitem d c = Ok (Series v) ->
  clean_values (map clean_value v) <> [] ->
  (forall a b, In a (clean_values (map clean_value v)) ->
               In b (clean_values (map clean_value v)) ->
               upper a = upper b -> a = b) ->
  exists r,
    validate_merge_keys self c c = Valid r /\
    (match_ratio_file1 r == 1)%Q /\ (match_ratio_file2 r == 1)%Q /\
    common_values r = file1_unique r /\ common_values r = file2_unique r.
Proof.
  intros E1 E2 G Hne Hinj. unfold validate_merge_keys.
  rewrite E1, E2.
  assert (M : mem c (columns d) = true).
  { apply mem_In. destruct (getitem_Series _ _ _ G) as (p & Hp & _).
    destruct (in_dec string_dec c (columns d)) as [H|H]; [exact H|].
    apply positions_nil in H. congruence. }
  rewrite M, G. cbn [negb bind as_series].
  set (cv := clean_values (map clean_value v)) in *.
  assert (L : List.length (intersection (to_set (map upper cv))
                                        (to_set (map upper cv)))
              = List.length (to_set cv)).
  { rewrite intersection_self, to_set_map_inj by exact Hinj.
    apply length_map. }
  eexists. split; [reflexivity|]. cbn [match_ratio_file1 match_ratio_file2
    common_values file1_unique file2_unique].
  rewrite L. pose proof (to_set_inhabited cv Hne) as Hpos.
  unfold ratio_or_zero. apply Nat.ltb_lt in Hpos as Hb. rewrite Hb.
  repeat split; try reflexivity; now apply ratio_self.
Qed.

Lemma self_merge_full_match_witness :
  exists r,
    validate_merge_keys (loaded ex_left_ids ex_left_ids) "id" "id"
    = Valid r /\
    (match_ratio_file1 r == 1)%Q /\ (match_ratio_file2 r == 1)%Q /\
    common_values r = file1_unique r /\ common_values r = file2_unique r.
Proof.
  apply (self_merge_full_match (loaded ex_left_ids ex_left_ids) ex_left_ids
           "id" [CStr "A1"; CStr "A2"]); try reflexivity.
  - cbn. discriminate.
  - cbn. intros a b [<-|[<-|[]]] [<-|[<-|[]]] H; try reflexivity;
      discriminate.
Defined.

End SelfMerge.

(** ** Candidate key columns (C2) *)

Section UniqueColumns.
Import FrameFacts.

Lemma Qgt_bool (a b : Q) : negb (Qle_bool a b) = true <-> (b < a)%Q.
Proof.
  rewrite negb_true_iff. split.
  - intros H. apply Qnot_le_lt. intros K. apply Qle_bool_iff in K. congruence.
  - intros H. destruct (Qle_bool a b) eqn:E; [|reflexivity].
    apply Qle_bool_iff in E. exfalso. now apply (Qlt_not_le _ _ H).
Qed.

Lemma unique_cols_of_filter (df : DataFrame) (cols : list string) :
  NoDup (columns df) -> 0 < len df -> incl cols (columns df) ->
  unique_cols_of df cols = Ok (filter (admits df) cols).
Proof.
  intros Hnd Hlen. induction cols as [|c cs IH]; intros Hincl; [reflexivity|].
  cbn [unique_cols_of filter].
  destruct (getitem_NoDup df c Hnd (Hincl c (or_introl eq_refl)))
    as (p & _ & G).
  unfold admits at 1. rewrite G. cbn [bind as_series].
  replace (len df =? 0) with false by (symmetry; apply Nat.eqb_neq; lia).
  rewrite IH by (intros x Hx; apply Hincl; now right).
  cbn [bind]. now destruct (negb _).
Qed.

(** C2, the claim as it is written fails: the column "ab", "AB", "cd" has
    three distinct values in three rows and is admitted, while its distinct
    normalized tokens are two in three rows, a ratio below 0.7. *)
Lemma admitted_below_token_ratio :
  unique_cols ex_case_variants = Ok ["code"] /\
  ~ (7 # 10 < spec_uniqueness_ratio ex_case_variants
                 [CStr "ab"; CStr "AB"; CStr "cd"])%Q.
Proof.
  split; [reflexivity|]. vm_compute. intros H; discriminate H.
Qed.

(** C2, amended: for a frame with rows and without repeated labels, the
    detector admits a column as a candidate key column if and only if the
    number of distinct cells of the column that are not missing, the cells
    taken as they are stored, divided by the number of rows, is greater
    than 0.7. *)
Theorem unique_cols_admits (df : DataFrame) :
  NoDup (columns df) -> 0 < len df ->
  exists l,
    unique_cols df = Ok l /\
    forall col,
      In col l <->
      In col (columns df) /\
      exists v, getitem df col = Ok (Series v) /\
                (7 # 10 < ratio (nunique v) (len df))%Q.
Proof.
  intros Hnd Hlen. exists (filter (admits df) (columns df)). split.
  - apply unique_cols_of_filter; trivial. apply incl_refl.
  - intros col. rewrite filter_In. unfold admits. split.
    + intros [Hin H]. split; [exact Hin|].
      destruct (getitem df col) as [[v|w]|e]; try discriminate.
      exists v. split; [reflexivity | now apply Qgt_bool].
    + intros [Hin (v & G & H)]. split; [exact Hin|].
      rewrite G. now apply Qgt_bool.
Qed.

Lemma unique_cols_admits_witness :
  exists l,
    unique_cols ex_case_variants = Ok l /\
    forall col,
      In col l <->
      In col (columns ex_case_variants) /\
      exists v, getitem ex_case_variants col = Ok (Series v) /\
                (7 # 10 < ratio (nunique v) (len ex_case_variants))%Q.
Proof.
  apply (unique_cols_admits ex_case_variants).
  - cbn. repeat constructor. intros [].
  - cbn. lia.
Defined.

End UniqueColumns.

(** ** Ranking of the candidates (C1) *)

Module SortFacts.

Lemma key_ltb_false (a b : candidate) : key_ltb a b = false -> key_ge a b.
Proof.
  unfold key_ltb, key_ge.
  destruct (cand_score a ?= cand_score b)%Q eqn:E; intros H.
  - right. split; [now apply Qeq_alt|]. apply Nat.ltb_ge in H. exact H.
  - discriminate.
  - left. now apply Qgt_alt.
Qed.

Lemma key_ltb_true (a b : candidate) : key_ltb a b = true -> key_ge b a.
Proof.
  unfold key_ltb, key_ge.
  destruct (cand_score a ?= cand_score b)%Q eqn:E; intros H.
  - right. split; [symmetry; now apply Qeq_alt|].
    apply Nat.ltb_lt in H. lia.
  - left. now apply Qlt_alt.
  - discriminate.
Qed.

Lemma key_ge_trans (a b c : candidate) :
  key_ge a b -> key_ge b c -> key_ge a c.
Proof.
  unfold key_ge. intros [H1|[E1 L1]] [H2|[E2 L2]].
  - left. now apply Qlt_trans with (cand_score b).
  - left. now rewrite <- E2.
  - left. now rewrite E1.
  - right. split; [now rewrite E1 | lia].
Qed.

Lemma insert_desc_perm (x : candidate) (l : list candidate) :
  Permutation (x :: l) (insert_desc x l).
Proof.
  induction l as [|y l IH]; cbn; [apply Permutation_refl|].
  destruct (key_ltb x y); [|apply Permutation_refl].
  apply perm_trans with (y :: x :: l); [apply perm_swap|].
  now apply perm_skip.
Qed.

Lemma sort_reverse_perm (l : list candidate) :
  Permutation l (sort_reverse l).
Proof.
  induction l as [|x l IH]; cbn; [apply perm_nil|].
  apply perm_trans with (x :: sort_reverse l); [now apply perm_skip|].
  apply insert_desc_perm.
Qed.

Lemma insert_desc_sorted (x : candidate) (l : list candidate) :
  Sorted key_ge l -> Sorted key_ge (insert_desc x l).
Proof.
  induction l as [|y l IH]; intros H; cbn.
  - repeat constructor.
  - destruct (key_ltb x y) eqn:E.
    + inversion H as [|? ? Hs Hh]. subst. constructor; [now apply IH|].
      destruct l as [|z l]; cbn.
      * constructor. now apply key_ltb_true.
      * destruct (key_ltb x z); constructor.
        -- now inversion Hh.
        -- now apply key_ltb_true.
    + constructor; [exact H|]. constructor. now apply key_ltb_false.
Qed.

Lemma sort_reverse_sorted (l : list candidate) :
  StronglySorted key_ge (sort_reverse l).
Proof.
  apply Sorted_StronglySorted.
  - intros a b c. apply key_ge_trans.
  - induction l as [|x l IH]; cbn; [constructor|].
    now apply insert_desc_sorted.
Qed.

End SortFacts.

Section Ranking.
Import SortFacts.

Variable fuzz_ratio : string -> string -> Z.

Lemma compare_columns_threshold (d1 d2 : DataFrame) (m : Q)
    (col1 col2 : string) (c : candidate) :
  compare_columns fuzz_ratio d1 d2 m col1 col2 = Ok (Some c) ->
  (m <= cand_score c)%Q.
Proof.
  unfold compare_columns.
  destruct (getitem d1 col1) as [[v1|w1]|e1]; try discriminate.
  destruct (getitem d2 col2) as [[v2|w2]|e2]; try discriminate.
  cbn [bind as_series].
  destruct (Nat.min _ _ =? 0); [discriminate|].
  destruct (_ || _); [discriminate|].
  destruct (Qle_bool m _) eqn:E; [|discriminate].
  intros H. inversion H. subst. cbn [cand_score].
  now apply Qle_bool_iff.
Qed.

Lemma compare_columns_names (d1 d2 : DataFrame) (m : Q)
    (col1 col2 : string) (c : candidate) :
  compare_columns fuzz_ratio d1 d2 m col1 col2 = Ok (Some c) ->
  cand_col1 c = col1 /\ cand_col2 c = col2.
Proof.
  unfold compare_columns.
  destruct (getitem d1 col1) as [[v1|w1]|e1]; try discriminate.
  destruct (getitem d2 col2) as [[v2|w2]|e2]; try discriminate.
  cbn [bind as_series].
  destruct (Nat.min _ _ =? 0); [discriminate|].
  destruct (_ || _); [discriminate|].
  destruct (Qle_bool m _); [|discriminate].
  intros H. inversion H. now subst.
Qed.

Lemma collect_origin (d1 d2 : DataFrame) (m : Q)
    (cols1 cols2 : list string) (c : candidate) :
  In c (collect fuzz_ratio d1 d2 m cols1 cols2) ->
  compare_columns fuzz_ratio d1 d2 m (cand_col1 c) (cand_col2 c)
  = Ok (Some c).
Proof.
  intros H. unfold collect in H.
  apply in_flat_map in H. destruct H as (col1 & _ & H).
  apply in_flat_map in H. destruct H as (col2 & _ & H).
  destruct (compare_columns fuzz_ratio d1 d2 m col1 col2)
    as [[c'|]|e] eqn:E; try contradiction.
  destruct H as [<-|[]].
  destruct (compare_columns_names _ _ _ _ _ _ E) as [-> ->]. exact E.
Qed.

Lemma collect_threshold (d1 d2 : DataFrame) (m : Q)
    (cols1 cols2 : list string) :
  Forall (fun c => (m <= cand_score c)%Q)
         (collect fuzz_ratio d1 d2 m cols1 cols2).
Proof.
  apply Forall_forall. intros c H. apply collect_origin in H.
  exact (compare_columns_threshold _ _ _ _ _ _ H).
Qed.

(** C1: whatever [detect_merge_keys] returns is the list of the candidates
    of line 152 after the sort, without their match counts.  Every
    candidate is what lines 115-152 compute for its pair of columns, its
    combined score is at least [min_match_ratio], and the candidates stand
    in non-increasing order of (combined score, match count), the score
    first and the match count to break ties.  The list is also what the
    engine keeps as [detected_keys]. *)
Theorem detect_merge_keys_ranked (self self' : MergeEngine)
    (min_match_ratio : Q) (keys : list (string * string * Q)) :
  detect_merge_keys fuzz_ratio self min_match_ratio = Ok (self', keys) ->
  exists candidates,
    keys = map format_key candidates /\
    (df1 self <> None -> df2 self <> None -> detected_keys self' = keys) /\
    (forall c, In c candidates ->
       exists d1 d2,
         df1 self = Some d1 /\ df2 self = Some d2 /\
         compare_columns fuzz_ratio d1 d2 min_match_ratio
                         (cand_col1 c) (cand_col2 c) = Ok (Some c)) /\
    Forall (fun k => (min_match_ratio <= snd k)%Q) keys /\
    Forall (fun c => (min_match_ratio <= cand_score c)%Q) candidates /\
    StronglySorted key_ge candidates.
Proof.
  unfold detect_merge_keys.
  destruct (df1 self) as [d1|]; [destruct (df2 self) as [d2|]|].
  2,3: intros H; inversion H; subst; exists []; repeat split;
       try constructor; try contradiction; intros; congruence.
  unfold ranked.
  destruct (unique_cols d1) as [u1|e1]; [|discriminate].
  destruct (unique_cols d2) as [u2|e2]; [|discriminate].
  cbn [bind]. intros H. inversion H. subst. clear H.
  set (cs := collect fuzz_ratio d1 d2 min_match_ratio u1 u2).
  assert (F : Forall (fun c => (min_match_ratio <= cand_score c)%Q)
                     (sort_reverse cs)).
  { apply (Permutation_Forall (sort_reverse_perm cs)).
    apply collect_threshold. }
  exists (sort_reverse cs). repeat split; trivial.
  - intros c Hc. exists d1, d2. repeat split.
    apply (collect_origin d1 d2 min_match_ratio u1 u2).
    apply (Permutation_in c (Permutation_sym (sort_reverse_perm cs)) Hc).
  - apply Forall_map. exact F.
  - apply sort_reverse_sorted.
Qed.

End Ranking.

Section RankingTotal.
Import FrameFacts.

(** For two loaded frames with rows and without repeated labels the
    detector does return. *)
Lemma detect_merge_keys_returns (fuzz_ratio : string -> string -> Z)
    (self : MergeEngine) (d1 d2 : DataFrame) (m : Q) :
  df1 self = Some d1 -> df2 self = Some d2 ->
  NoDup (columns d1) -> NoDup (columns d2) ->
  0 < len d1 -> 0 < len d2 ->
  exists self' keys, detect_merge_keys fuzz_ratio self m = Ok (self', keys).
Proof.
  intros E1 E2 N1 N2 L1 L2. unfold detect_merge_keys, ranked, unique_cols.
  rewrite E1, E2.
  rewrite (unique_cols_of_filter d1 _ N1 L1 (incl_refl _)).
  rewrite (unique_cols_of_filter d2 _ N2 L2 (incl_refl _)).
  cbn [bind]. eauto.
Qed.

Lemma detect_merge_keys_ranked_witness :
  exists self' keys,
    detect_merge_keys (fun _ _ => 100%Z) (loaded ex_left_ids ex_right_ids)
                      (3 # 10) = Ok (self', keys) /\
    exists candidates,
      keys = map format_key candidates /\
      (df1 (loaded ex_left_ids ex_right_ids) <> None ->
       df2 (loaded ex_left_ids ex_right_ids) <> None ->
       detected_keys self' = keys) /\
      (forall c, In c candidates ->
         exists d1 d2,
           df1 (loaded ex_left_ids ex_right_ids) = Some d1 /\
           df2 (loaded ex_left_ids ex_right_ids) = Some d2 /\
           compare_columns (fun _ _ => 100%Z) d1 d2 (3 # 10)
                           (cand_col1 c) (cand_col2 c) = Ok (Some c)) /\
      Forall (fun k => (3 # 10 <= snd k)%Q) keys /\
      Forall (fun c => (3 # 10 <= cand_score c)%Q) candidates /\
      StronglySorted key_ge candidates.
Proof.
  do 2 eexists. split; [vm_compute; reflexivity|].
  apply (detect_merge_keys_ranked (fun _ _ => 100%Z)
           (loaded ex_left_ids ex_right_ids) _ (3 # 10) _).
  vm_compute. reflexivity.
Defined.

End RankingTotal.

(** ** The frames the engine holds (C10) *)

Section Operations.

Variable fuzz_ratio : string -> string -> Z.

Lemma perform_merge_frames (self : MergeEngine) (key1 key2 : string)
    (how : join) :
  df1 (fst (perform_merge self key1 key2 how)) = df1 self /\
  df2 (fst (perform_merge self key1 key2 how)) = df2 self.
Proof.
  unfold perform_merge.
  destruct (df1 self) as [d1|] eqn:E1; [|cbn; split; congruence].
  destruct (df2 self) as [d2|] eqn:E2; [|cbn; split; congruence].
  destruct (prepare d1 d2 key1 key2) as [[l r]|e]; [|cbn; split; congruence].
  destruct (pd_merge l r key1 how) as [res|e]; [|cbn; split; congruence].
  destruct (post_check l res); cbn; split; congruence.
Qed.

Lemma step_frames_nonempty (self : MergeEngine) (op : operation) :
  frames_nonempty self -> frames_nonempty (step fuzz_ratio self op).
Proof.
  intros Inv. destruct op as [p read n|m|k1 k2|k1 k2 how|w]; cbn [step];
    trivial.
  - unfold load_file. destruct read as [df| |]; trivial.
    destruct (empty df) eqn:E; trivial.
    assert (K : empty (strip_columns df) = false).
    { unfold empty, strip_columns, len in *. cbn [columns rows].
      now rewrite length_map. }
    destruct (Z.eqb n 1); intros d [H|H]; cbn in H.
    + now inversion H.
    + apply Inv. now right.
    + apply Inv. now left.
    + now inversion H.
  - unfold detect_merge_keys.
    destruct (df1 self) as [d1|] eqn:E1; [|exact Inv].
    destruct (df2 self) as [d2|] eqn:E2; [|exact Inv].
    destruct (ranked fuzz_ratio d1 d2 m); cbn [bind]; [|exact Inv].
    intros d H. cbn in H. apply Inv. now rewrite E1, E2.
  - destruct (perform_merge_frames self k1 k2 how) as [H1 H2].
    intros d H. rewrite H1, H2 in H. now apply Inv.
Qed.

Lemma run_frames_nonempty (ops : list operation) : frames_nonempty (run fuzz_ratio ops).
Proof.
  unfold run.
  assert (K : forall self, frames_nonempty self ->
                           frames_nonempty (fold_left (step fuzz_ratio) ops self)).
  { induction ops as [|op ops IH]; intros self Inv; [exact Inv|].
    cbn. apply IH. now apply step_frames_nonempty. }
  apply K. intros d [H|H]; discriminate H.
Qed.

Lemma unique_cols_of_divides (d : DataFrame) (cols : list string) :
  0 < len d -> unique_cols_of d cols <> Raise ZeroDivisionError.
Proof.
  intros Hlen. induction cols as [|c cs IH]; [discriminate|].
  cbn [unique_cols_of].
  destruct (getitem d c) as [[v|w]|e] eqn:G; cbn [bind as_series];
    try discriminate.
  - replace (len d =? 0) with false by (symmetry; apply Nat.eqb_neq; lia).
    destruct (unique_cols_of d cs) as [rest|e]; cbn [bind].
    + now destruct (negb _).
    + exact IH.
  - unfold getitem in G. destruct (positions c (columns d)) as [|? [|? ?]];
      inversion G. discriminate.
Qed.

(** C10: after any sequence of calls on a fresh engine, a frame held as
    [df1] or [df2] has at least one row and one column, because
    [load_file] refuses an empty frame and stores only after that test;
    the divisions by [len(df)] of lines 100 and 107 therefore never raise
    [ZeroDivisionError]. *)
Theorem held_frames_nonempty (ops : list operation) (d : DataFrame) :
  df1 (run fuzz_ratio ops) = Some d \/ df2 (run fuzz_ratio ops) = Some d ->
  0 < len d /\ 0 < List.length (columns d) /\
  unique_cols d <> Raise ZeroDivisionError.
Proof.
  intros H. pose proof (run_frames_nonempty ops d H) as E.
  unfold empty in E. apply orb_false_iff in E. destruct E as [Ec Er].
  apply Nat.eqb_neq in Ec, Er.
  repeat split; try lia. apply unique_cols_of_divides. lia.
Qed.

End Operations.

Lemma held_frames_nonempty_witness :
  0 < len ex_left_ids /\ 0 < List.length (columns ex_left_ids) /\
  unique_cols ex_left_ids <> Raise ZeroDivisionError.
Proof.
  apply (held_frames_nonempty (fun _ _ => 0%Z)
           [LoadFile "a.csv" (ReadFrame ex_left_ids) 1;
            LoadFile "e.csv" (ReadFrame {| columns := ["id"]; rows := [] |}) 2;
            DetectKeys (3 # 10)]
           ex_left_ids).
  left. reflexivity.
Defined.

(** ** The merge: examples *)

(** The example of the specification: "A1" and "a1" are different keys for
    the merge, so the left join finds no partner and fills "status" with
    NaN. *)
Example left_join_case_mismatch :
  perform_merge (loaded ex_left_ids ex_right_ids) "id" "id" JoinLeft
  = (with_merge_result (loaded ex_left_ids ex_right_ids)
       {| columns := ["id"; "name"; "status"];
          rows := [[CStr "A1"; CStr "x"; CNaN];
                   [CStr "A2"; CStr "y"; CNaN]] |},
     true).
Proof. reflexivity. Qed.

(** C3, the code at a failing input.  The left file has the columns a
    chain of earlier merges produces ("status", "status_right",
    "status_right_right"), the right file has "status".  The join returns
    a frame with the label "status_right_right" twice, line 286 stores it,
    the inspection of line 301 raises on it, and [perform_merge] returns
    [False]: the call fails and the stored result is no longer the one of
    the earlier merge. *)
Theorem failed_merge_replaces_result :
  snd (perform_merge ex_merged_before "id" "id" JoinLeft) = false /\
  merge_result (fst (perform_merge ex_merged_before "id" "id" JoinLeft))
  = Some {| columns := ["id"; "status"; "status_right";
                        "status_right_right"; "status_right_right"];
            rows := [[CStr "1"; CStr "a"; CStr "b"; CStr "c"; CStr "z"]] |} /\
  merge_result (fst (perform_merge ex_merged_before "id" "id" JoinLeft))
  <> merge_result ex_merged_before.
Proof.
  split; [reflexivity|]. split; [reflexivity|]. vm_compute. discriminate.
Qed.

(** A call that fails before line 286, in the preparation or in the join
    itself, leaves the whole engine as it was. *)
Lemma early_failure_keeps_engine (self : MergeEngine) (key1 key2 : string)
    (how : join) :
  (forall d1 d2, df1 self = Some d1 -> df2 self = Some d2 ->
     match prepare d1 d2 key1 key2 with
     | Ok (l, r) => exists e, pd_merge l r key1 how = Raise e
     | Raise _ => True
     end) ->
  perform_merge self key1 key2 how = (self, false).
Proof.
  intros H. unfold perform_merge.
  destruct (df1 self) as [d1|]; [|reflexivity].
  destruct (df2 self) as [d2|]; [|reflexivity].
  specialize (H d1 d2 eq_refl eq_refl).
  destruct (prepare d1 d2 key1 key2) as [[l r]|e]; [|reflexivity].
  destruct H as [e H]. now rewrite H.
Qed.

(** C6, the claim as it is written fails: the key is unique in both
    files, but "K1" and "K1.0" of the right file are the same key once
    ".0" is removed, and the left join returns two rows for the one row of
    the left file. *)
Lemma left_join_grows :
  NoDup (column_at 0 ex_one_key) /\ NoDup (column_at 0 ex_two_keys) /\
  snd (perform_merge (loaded ex_one_key ex_two_keys) "id" "id" JoinLeft)
  = true /\
  exists res,
    merge_result
      (fst (perform_merge (loaded ex_one_key ex_two_keys) "id" "id" JoinLeft))
    = Some res /\
    len res = 2 /\ len ex_one_key = 1.
Proof.
  split; [|split].
  - cbn. repeat constructor. intros [].
  - cbn. repeat constructor; cbn; [intros [H|[]]; discriminate H | intros []].
  - split; [reflexivity|]. eexists. split; [reflexivity|]. now split.
Qed.

(** C7, the claim as it is written fails: when the left file already has
    a column "status_right", the merge succeeds and the column
    "status_right" of the result holds the left file's values; the right
    file's "status" is found under "status_right_right". *)
Lemma status_right_taken :
  exists res,
    perform_merge (loaded ex_status_left ex_status_right) "id" "id" JoinLeft
    = (with_merge_result (loaded ex_status_left ex_status_right) res, true) /\
    getitem ex_status_right "status" = Ok (Series [CStr "z"]) /\
    getitem res "status_right" = Ok (Series [CStr "b"]) /\
    getitem res "status_right_right" = Ok (Series [CStr "z"]).
Proof.
  eexists. split; [reflexivity|]. repeat split.
Qed.

(** ** The merge: frames handed to the join *)

Module ListFacts.
Import FrameFacts.

Lemma nth_set_nth_other {A : Type} (p q : nat) (x d : A) (l : list A) :
  p <> q -> nth q (set_nth p x l) d = nth q l d.
Proof.
  revert p q. induction l as [|h t IH]; intros p q H; [now destruct p|].
  destruct p, q; try reflexivity; [congruence|].
  cbn. apply IH. congruence.
Qed.

Lemma length_set_nth {A : Type} (p : nat) (x : A) (l : list A) :
  List.length (set_nth p x l) = List.length l.
Proof.
  revert p. induction l as [|h t IH]; intros p; [now destruct p|].
  destruct p; cbn; [reflexivity | now rewrite IH].
Qed.

Lemma nth_remove_nth_lt {A : Type} (k q : nat) (d : A) (l : list A) :
  q < k -> nth q (remove_nth k l) d = nth q l d.
Proof.
  revert k q. induction l as [|h t IH]; intros k q H; [now destruct k|].
  destruct k; [lia|]. destruct q; [reflexivity|]. cbn. apply IH. lia.
Qed.

Lemma nth_remove_nth_ge {A : Type} (k q : nat) (d : A) (l : list A) :
  k <= q -> nth q (remove_nth k l) d = nth (S q) l d.
Proof.
  revert k q. induction l as [|h t IH]; intros k q H.
  - now destruct k, q.
  - destruct k; [reflexivity|]. destruct q; [lia|]. cbn [remove_nth nth].
    apply IH. lia.
Qed.

Lemma nth_error_remove_nth_lt {A : Type} (k q : nat) (l : list A) :
  q < k -> nth_error (remove_nth k l) q = nth_error l q.
Proof.
  revert k q. induction l as [|h t IH]; intros k q H; [now destruct k|].
  destruct k; [lia|]. destruct q; [reflexivity|]. cbn. apply IH. lia.
Qed.

Lemma nth_error_remove_nth_ge {A : Type} (k q : nat) (l : list A) :
  k <= q -> nth_error (remove_nth k l) q = nth_error l (S q).
Proof.
  revert k q. induction l as [|h t IH]; intros k q H.
  - now destruct k, q.
  - destruct k; [reflexivity|]. destruct q; [lia|].
    cbn [remove_nth nth_error]. apply IH. lia.
Qed.

Lemma nth_error_remove_nth {A : Type} (k p : nat) (l : list A) :
  p <> k -> nth_error (remove_nth k l) (shift k p) = nth_error l p.
Proof.
  intros H. unfold shift. destruct (p <? k) eqn:E.
  - apply Nat.ltb_lt in E. now apply nth_error_remove_nth_lt.
  - apply Nat.ltb_ge in E. rewrite nth_error_remove_nth_ge by lia.
    f_equal. lia.
Qed.

Lemma nth_remove_nth {A : Type} (k p : nat) (d : A) (l : list A) :
  p <> k -> nth (shift k p) (remove_nth k l) d = nth p l d.
Proof.
  intros H. unfold shift. destruct (p <? k) eqn:E.
  - apply Nat.ltb_lt in E. now apply nth_remove_nth_lt.
  - apply Nat.ltb_ge in E. rewrite nth_remove_nth_ge by lia.
    f_equal. lia.
Qed.

Lemma nth_error_remove_nth_inv {A : Type} (k q : nat) (l : list A) :
  exists p, p <> k /\ q = shift k p /\
            nth_error (remove_nth k l) q = nth_error l p.
Proof.
  destruct (q <? k) eqn:E.
  - apply Nat.ltb_lt in E. exists q. repeat split; [lia | |].
    + unfold shift. apply Nat.ltb_lt in E. now rewrite E.
    + now apply nth_error_remove_nth_lt.
  - apply Nat.ltb_ge in E. exists (S q). repeat split; [lia | |].
    + unfold shift. replace (S q <? k) with false
        by (symmetry; apply Nat.ltb_ge; lia). lia.
    + now apply nth_error_remove_nth_ge.
Qed.

Lemma positions_from_app (i : nat) (col : string) (a b : list string) :
  positions_from i col (a ++ b) =
  positions_from i col a ++ positions_from (i + List.length a) col b.
Proof.
  revert i. induction a as [|c a IH]; intros i; cbn.
  - now rewrite Nat.add_0_r.
  - rewrite IH. replace (S i + List.length a) with (i + S (List.length a))
      by lia.
    now destruct (String.eqb c col).
Qed.

Lemma positions_from_unique (i p : nat) (col : string) (cols : list string) :
  nth_error cols p = Some col ->
  (forall q, nth_error cols q = Some col -> q = p) ->
  positions_from i col cols = [i + p].
Proof.
  revert i p. induction cols as [|c cs IH]; intros i p Hp Hu.
  - now destruct p.
  - cbn [positions_from]. destruct p.
    + cbn in Hp. inversion Hp. subst. rewrite String.eqb_refl.
      rewrite positions_from_none; [now rewrite Nat.add_0_r|].
      intros H. apply In_nth_error in H. destruct H as [q H].
      specialize (Hu (S q) H). discriminate.
    + destruct (String.eqb_spec c col) as [->|Hne].
      * specialize (Hu 0 eq_refl). discriminate.
      * rewrite (IH (S i) p); [f_equal; lia | exact Hp |].
        intros q H. specialize (Hu (S q) H). lia.
Qed.

Lemma unique_positions_NoDup (l : list string) :
  (forall c, In c l -> exists p, positions c l = [p]) -> NoDup l.
Proof.
  intros H. apply NoDup_nth_error. intros i j Hi E.
  destruct (nth_error l i) as [c|] eqn:Ei;
    [|apply nth_error_None in Ei; lia].
  symmetry in E. destruct (H c (nth_error_In _ _ Ei)) as [p Hp].
  apply positions_In in Ei, E. rewrite Hp in Ei, E.
  destruct Ei as [<-|[]]. destruct E as [<-|[]]. reflexivity.
Qed.

Lemma append_cancel_r (x y s : string) :
  (x ++ s = y ++ s)%string -> x = y.
Proof.
  assert (L : forall a b, String.length (a ++ b)
                          = String.length a + String.length b).
  { induction a as [|c a IH]; intros b; cbn; [reflexivity | now rewrite IH]. }
  revert y. induction x as [|c x IH]; intros y H.
  - destruct y as [|d y]; [reflexivity|].
    apply (f_equal String.length) in H. rewrite !L in H. cbn in H. lia.
  - destruct y as [|d y].
    + apply (f_equal String.length) in H. rewrite !L in H. cbn in H. lia.
    + cbn in H. inversion H. f_equal. now apply IH.
Qed.

End ListFacts.

Module PrepareFacts.
Import FrameFacts ListFacts.

Lemma set_column_len (p : nat) (vals : list cell) (df : DataFrame) :
  List.length vals = len df -> len (set_column p vals df) = len df.
Proof.
  unfold len, set_column. cbn [rows]. intros H.
  rewrite length_map, length_combine. lia.
Qed.

Lemma column_at_set_column_other (p q : nat) (vals : list cell)
    (df : DataFrame) :
  p <> q -> List.length vals = len df ->
  column_at q (set_column p vals df) = column_at q df.
Proof.
  unfold column_at, set_column, len. cbn [rows]. intros Hpq.
  generalize (rows df). intros rs. revert vals.
  induction rs as [|r rs IH]; intros vals H.
  - reflexivity.
  - destruct vals as [|v vals]; [discriminate|]. cbn.
    rewrite nth_set_nth_other by exact Hpq. f_equal. apply IH.
    cbn in H. lia.
Qed.

Lemma set_column_wf (p : nat) (vals : list cell) (df : DataFrame) :
  well_formed df -> well_formed (set_column p vals df).
Proof.
  unfold well_formed, set_column. cbn [rows columns].
  intros H. apply Forall_forall. intros row Hin.
  apply in_map_iff in Hin. destruct Hin as ([r v] & <- & Hrv).
  cbn. rewrite length_set_nth.
  apply in_combine_l in Hrv. rewrite Forall_forall in H. now apply H.
Qed.

Lemma normalize_key_inv (df df' : DataFrame) (key : string) :
  normalize_key df key = Ok df' ->
  exists p, positions key (columns df) = [p] /\
            df' = set_column p (map norm_cell (column_at p df)) df.
Proof.
  unfold normalize_key, getitem, setitem.
  destruct (positions key (columns df)) as [|p [|q ps]]; try discriminate.
  cbn. intros H. inversion H. now exists p.
Qed.

Lemma rename_conflicts_rows (l : DataFrame) (key1 : string)
    (rc : list string) (r : DataFrame) :
  rows (rename_conflicts l key1 rc r) = rows r.
Proof.
  unfold rename_conflicts. revert r.
  induction rc as [|c rc IH]; intros r; [reflexivity|].
  cbn [fold_left]. rewrite IH. now destruct (_ && _).
Qed.

Lemma rename_label (old new : string) (df : DataFrame) (p : nat) :
  nth_error (columns (rename old new df)) p =
  option_map (fun c => if String.eqb c old then new else c)
             (nth_error (columns df) p).
Proof. unfold rename. cbn [columns]. apply nth_error_map. Qed.

Lemma rename_conflicts_key (l : DataFrame) (key1 : string)
    (rc : list string) (r : DataFrame) (p : nat) :
  nth_error (columns r) p = Some key1 ->
  nth_error (columns (rename_conflicts l key1 rc r)) p = Some key1.
Proof.
  unfold rename_conflicts. revert r.
  induction rc as [|c rc IH]; intros r H; [exact H|].
  cbn [fold_left]. apply IH.
  destruct (mem c (columns l)); cbn [andb]; [|exact H].
  destruct (String.eqb_spec c key1) as [->|Hne]; cbn [negb]; [exact H|].
  rewrite rename_label, H. cbn.
  destruct (String.eqb_spec key1 c); congruence.
Qed.

(** A colliding label ends up with the suffix when the suffixed name is
    not itself a label of the left frame. *)
Lemma rename_conflicts_suffix (l : DataFrame) (key1 c : string)
    (rc : list string) (r : DataFrame) (p : nat) :
  In c (columns l) -> c <> key1 ->
  ~ In (c ++ "_right")%string (columns l) ->
  (nth_error (columns r) p = Some c /\ In c rc) \/
  nth_error (columns r) p = Some (c ++ "_right")%string ->
  nth_error (columns (rename_conflicts l key1 rc r)) p
  = Some (c ++ "_right")%string.
Proof.
  intros Hc Hk Hs. unfold rename_conflicts. revert r.
  induction rc as [|x rc IH]; intros r H.
  - destruct H as [[_ []]|H]. exact H.
  - cbn [fold_left]. apply IH.
    destruct (mem x (columns l)) eqn:M; cbn [andb].
    2:{ destruct H as [[H [E|Hin]]|H]; [|left; now split|now right].
        subst. apply mem_In in Hc. congruence. }
    destruct (String.eqb_spec x key1) as [->|Hne]; cbn [negb].
    { destruct H as [[H [E|Hin]]|H]; [congruence|left; now split|now right]. }
    rewrite rename_label.
    destruct H as [[H Hin]|H]; rewrite H; cbn [option_map].
    + destruct (String.eqb_spec c x) as [->|Hcx]; [now right|].
      left. split; [reflexivity|]. destruct Hin as [E|Hin]; congruence.
    + right. destruct (String.eqb_spec (c ++ "_right") x) as [<-|_];
        [|reflexivity].
      apply mem_In in M. contradiction.
Qed.

(** A colliding label that does not end in "_right" is no label of the
    right frame once the loop is over. *)
Lemma rename_conflicts_gone (l : DataFrame) (key1 c : string)
    (rc : list string) (r : DataFrame) :
  In c (columns l) -> c <> key1 ->
  (forall x, c <> (x ++ "_right")%string) ->
  In c rc \/ ~ In c (columns r) ->
  ~ In c (columns (rename_conflicts l key1 rc r)).
Proof.
  intros Hc Hk Hs. unfold rename_conflicts. revert r.
  induction rc as [|x rc IH]; intros r H.
  - destruct H as [[]|H]. exact H.
  - cbn [fold_left]. apply IH.
    destruct (String.eqb_spec x c) as [->|Hxc].
    + right. apply mem_In in Hc. rewrite Hc. cbn [andb].
      destruct (String.eqb_spec c key1); [congruence|]. cbn [negb].
      unfold rename. cbn [columns]. intros K. apply in_map_iff in K.
      destruct K as (y & E & _).
      destruct (String.eqb_spec y c); [|congruence].
      symmetry in E. now apply Hs in E.
    + destruct H as [[E|H]|H]; [congruence|now left|right].
      destruct (mem x (columns l) && negb (String.eqb x key1)); [|exact H].
      unfold rename. cbn [columns]. intros K. apply in_map_iff in K.
      destruct K as (y & E & Hy).
      destruct (String.eqb_spec y x); [|congruence].
      symmetry in E. now apply Hs in E.
Qed.

Lemma data_check_inv (r : DataFrame) (key1 : string) (cols : list string) :
  data_check r key1 cols = Ok tt ->
  forall col, In col cols -> col <> key1 ->
              exists p, positions col (columns r) = [p].
Proof.
  induction cols as [|c cs IH]; intros H col Hin Hne; [destruct Hin|].
  cbn [data_check] in H.
  destruct (String.eqb_spec c key1) as [->|Hc]; cbn [negb] in H.
  - destruct Hin as [E|Hin]; [congruence|]. now apply IH.
  - destruct (getitem r c) as [[v|w]|e] eqn:G; try discriminate.
    cbn [bind as_series] in H. destruct Hin as [<-|Hin]; [|now apply IH].
    destruct (getitem_Series _ _ _ G) as (p & Hp & _). now exists p.
Qed.

Lemma replace_first_In (old new c : string) (l : list string) :
  In c l -> c <> old -> In c (replace_first old new l).
Proof.
  induction l as [|x l IH]; intros H Hne; [destruct H|].
  cbn [replace_first]. destruct (String.eqb_spec x old) as [->|Hx].
  - destruct H as [E|H]; [congruence | now right].
  - destruct H as [E|H]; [now left | right; now apply IH].
Qed.

End PrepareFacts.

Module MergeFacts.
Import FrameFacts ListFacts PrepareFacts.

Lemma prepare_inv (d1 d2 l r : DataFrame) (key1 key2 : string) :
  prepare d1 d2 key1 key2 = Ok (l, r) ->
  exists p1 p2,
    positions key1 (columns d1) = [p1] /\
    positions key2 (columns d2) = [p2] /\
    l = set_column p1 (map norm_cell (column_at p1 d1)) d1 /\
    r = rename_conflicts l key1 (right_snapshot d2 key1 key2)
          (right_start d2 key1 key2 p2) /\
    data_check r key1 (columns r) = Ok tt.
Proof.
  unfold prepare. intros H.
  destruct (normalize_key d1 key1) as [l0|e] eqn:N1; [|discriminate].
  destruct (normalize_key d2 key2) as [r0|e] eqn:N2; [|discriminate].
  cbn [bind] in H.
  destruct (normalize_key_inv _ _ _ N1) as (p1 & P1 & ->).
  destruct (normalize_key_inv _ _ _ N2) as (p2 & P2 & ->).
  exists p1, p2. repeat split; trivial;
    unfold right_start, right_snapshot;
    destruct (data_check _ key1 _) as [[]|e] eqn:D; try discriminate;
    cbn [bind] in H; inversion H; subst; cbn [set_column columns] in *;
    trivial.
Qed.

Lemma right_start_key (d2 : DataFrame) (key1 key2 : string) (p2 : nat) :
  positions key2 (columns d2) = [p2] ->
  nth_error (columns (right_start d2 key1 key2 p2)) p2 = Some key1.
Proof.
  intros P2. assert (K : nth_error (columns d2) p2 = Some key2).
  { apply positions_In. rewrite P2. now left. }
  unfold right_start. destruct (String.eqb_spec key2 key1) as [->|Hne];
    cbn [negb].
  - exact K.
  - rewrite rename_label. cbn [set_column columns]. rewrite K. cbn.
    now rewrite String.eqb_refl.
Qed.

Lemma right_start_label (d2 : DataFrame) (key1 key2 c : string)
    (p2 pb : nat) :
  c <> key2 -> nth_error (columns d2) pb = Some c ->
  nth_error (columns (right_start d2 key1 key2 p2)) pb = Some c.
Proof.
  intros Hne K. unfold right_start.
  destruct (negb (String.eqb key2 key1)); [|exact K].
  rewrite rename_label. cbn [set_column columns]. rewrite K. cbn.
  destruct (String.eqb_spec c key2); congruence.
Qed.

Lemma right_start_rows (d2 : DataFrame) (key1 key2 : string) (p2 : nat) :
  rows (right_start d2 key1 key2 p2)
  = rows (set_column p2 (map norm_cell (column_at p2 d2)) d2).
Proof.
  unfold right_start. now destruct (negb (String.eqb key2 key1)).
Qed.

Lemma right_snapshot_In (d2 : DataFrame) (key1 key2 c : string) :
  In c (columns d2) -> c <> key2 -> In c (right_snapshot d2 key1 key2).
Proof.
  intros H Hne. unfold right_snapshot.
  destruct (negb (String.eqb key2 key1)); [|exact H].
  now apply replace_first_In.
Qed.

(** What a call that returns [True] went through. *)
Lemma perform_merge_success (self self' : MergeEngine) (d1 d2 : DataFrame)
    (key1 key2 : string) (how : join) :
  df1 self = Some d1 -> df2 self = Some d2 ->
  perform_merge self key1 key2 how = (self', true) ->
  exists p1 p2 l r rlabels,
    positions key1 (columns d1) = [p1] /\
    positions key2 (columns d2) = [p2] /\
    l = set_column p1 (map norm_cell (column_at p1 d1)) d1 /\
    r = rename_conflicts l key1 (right_snapshot d2 key1 key2)
          (right_start d2 key1 key2 p2) /\
    NoDup (columns r) /\
    positions key1 (columns r) = [p2] /\
    right_labels (columns l) (remove_nth p2 (columns r)) = Ok rlabels /\
    merge_result self' =
      Some {| columns := columns l ++ rlabels;
              rows := map (joined_row l r p1 p2 (column_at p2 r))
                          (join_index how (column_at p1 l)
                                          (column_at p2 r)) |}.
Proof.
  intros E1 E2. unfold perform_merge. rewrite E1, E2.
  destruct (prepare d1 d2 key1 key2) as [[l r]|e] eqn:P; [|discriminate].
  destruct (prepare_inv _ _ _ _ _ _ P) as (p1 & p2 & P1 & P2 & L & R & D).
  unfold pd_merge, key_position.
  assert (CL : columns l = columns d1) by now rewrite L.
  rewrite CL, P1. cbn [bind].
  assert (K : nth_error (columns r) p2 = Some key1).
  { rewrite R. apply rename_conflicts_key. now apply right_start_key. }
  destruct (positions key1 (columns r)) as [|kr [|q ps]] eqn:PR;
    try discriminate.
  assert (kr = p2) as ->.
  { apply positions_In in K. rewrite PR in K. now destruct K as [<-|[]]. }
  cbn [bind].
  destruct (right_labels (columns d1) (remove_nth p2 (columns r)))
    as [rlabels|e] eqn:RL; [|discriminate].
  cbn [bind]. destruct (post_check l _); [|discriminate].
  intros H. inversion H. subst self'. clear H.
  exists p1, p2, l, r, rlabels. rewrite CL. repeat split; trivial.
  apply unique_positions_NoDup. intros c Hc.
  destruct (string_dec c key1) as [->|Hne]; [now exists p2|].
  exact (data_check_inv _ _ _ D c Hc Hne).
Qed.

End MergeFacts.

(** ** Row count of the left join (C6) *)

Section LeftJoin.
Import FrameFacts ListFacts PrepareFacts MergeFacts.

Lemma matches_from_none (i : nat) (k : cell) (keys : list cell) :
  ~ In k keys -> matches_from i k keys = [].
Proof.
  revert i. induction keys as [|k' t IH]; intros i H; [reflexivity|].
  cbn [matches_from]. destruct (cell_eq_dec k k') as [->|Hne].
  - exfalso. apply H. now left.
  - apply IH. intros K. apply H. now right.
Qed.

Lemma matches_from_NoDup (i : nat) (k : cell) (keys : list cell) :
  NoDup keys -> List.length (matches_from i k keys) <= 1.
Proof.
  revert i. induction keys as [|k' t IH]; intros i H; [cbn; lia|].
  inversion H as [|? ? Hn Ht]. subst. cbn [matches_from].
  destruct (cell_eq_dec k k') as [->|Hne].
  - rewrite matches_from_none by exact Hn. cbn. lia.
  - now apply IH.
Qed.

Lemma flat_map_singletons {A B : Type} (f : A -> list B) (l : list A) :
  (forall x, In x l -> List.length (f x) = 1) ->
  List.length (flat_map f l) = List.length l.
Proof.
  induction l as [|x l IH]; intros H; [reflexivity|].
  cbn [flat_map]. rewrite length_app, IH, H.
  - reflexivity.
  - now left.
  - intros y Hy. apply H. now right.
Qed.

Lemma left_pairs_length (lkeys rkeys : list cell) :
  NoDup rkeys ->
  List.length (left_pairs true lkeys rkeys) = List.length lkeys.
Proof.
  intros H. unfold left_pairs. rewrite flat_map_singletons.
  - rewrite length_combine, length_seq. lia.
  - intros [i k] _. cbn [fst snd].
    pose proof (matches_from_NoDup 0 k rkeys H) as L. unfold matches_of.
    destruct (matches_from 0 k rkeys) as [|j [|j' ms]]; cbn in *;
      [reflexivity | reflexivity | lia].
Qed.

Lemma right_keys (d2 r : DataFrame) (key1 key2 : string) (p2 : nat)
    (l : DataFrame) :
  well_formed d2 -> positions key2 (columns d2) = [p2] ->
  r = rename_conflicts l key1 (right_snapshot d2 key1 key2)
        (right_start d2 key1 key2 p2) ->
  column_at p2 r = map norm_cell (column_at p2 d2).
Proof.
  intros W P2 ->.
  unfold column_at at 1. rewrite rename_conflicts_rows, right_start_rows.
  apply column_at_set_column; trivial.
  - apply nth_error_Some.
    assert (K : In p2 (positions key2 (columns d2))) by (rewrite P2; now left).
    apply positions_In in K. congruence.
  - now rewrite length_map, column_at_length.
Qed.

(** C6, amended: when the key values of the right file are pairwise
    different after the normalization of the merge (text, trimmed, every
    ".0" removed), a left join that succeeds stores a result with exactly
    as many rows as the left file, however many of its keys are matched. *)
Theorem left_join_keeps_rows (self self' : MergeEngine) (d1 d2 : DataFrame)
    (key1 key2 : string) (v2 : list cell) :
  df1 self = Some d1 -> df2 self = Some d2 ->
  well_formed d2 ->
  getitem d2 key2 = Ok (Series v2) ->
  NoDup (map merge_key v2) ->
  perform_merge self key1 key2 JoinLeft = (self', true) ->
  exists res, merge_result self' = Some res /\ len res = len d1.
Proof.
  intros E1 E2 W G Hnd H.
  destruct (perform_merge_success _ _ _ _ _ _ _ E1 E2 H)
    as (p1 & p2 & l & r & rlabels & P1 & P2 & L & R & _ & _ & _ & M).
  eexists. split; [exact M|].
  unfold len at 1. cbn [rows join_index]. rewrite length_map.
  destruct (getitem_Series _ _ _ G) as (p & Hp & ->).
  rewrite P2 in Hp. inversion Hp. subst p.
  rewrite (right_keys d2 r key1 key2 p2 l W P2 R).
  rewrite left_pairs_length.
  - rewrite column_at_length, L. apply set_column_len.
    now rewrite length_map, column_at_length.
  - unfold norm_cell. rewrite <- (map_map merge_key CStr).
    apply Injective_map_NoDup; [|exact Hnd].
    intros a b E. now inversion E.
Qed.

Lemma left_join_keeps_rows_witness :
  exists res,
    merge_result
      (fst (perform_merge (loaded ex_left_ids ex_right_ids) "id" "id"
              JoinLeft)) = Some res /\
    len res = len ex_left_ids.
Proof.
  apply (left_join_keeps_rows (loaded ex_left_ids ex_right_ids) _
           ex_left_ids ex_right_ids "id" "id" [CStr "a1"; CStr "A3"]);
    try reflexivity.
  - repeat constructor.
  - cbn. repeat constructor; cbn; [intros [H|[]]; discriminate H | intros []].
Defined.

End LeftJoin.

(** ** The key normalization of the merge (C8) *)

Module JoinFacts.
Import FrameFacts.















End JoinFacts.

Section ExecutorKeys.
Import FrameFacts CaseFacts StringFacts PrepareFacts MergeFacts JoinFacts.



End ExecutorKeys.

(** ** Columns of the same name on both sides (C7) *)

Module RowFacts.
Import FrameFacts ListFacts PrepareFacts MergeFacts.

Lemma nth_nth_default (q i n : nat) (rs : list (list cell)) :
  nth q (nth i rs (repeat CNaN n)) CNaN
  = nth i (map (fun row => nth q row CNaN) rs) CNaN.
Proof.
  revert i. induction rs as [|r rs IH]; intros i.
  - destruct i; cbn; apply nth_repeat.
  - destruct i; cbn; [reflexivity | apply IH].
Qed.

Lemma nth_length (i n : nat) (rs : list (list cell)) :
  Forall (fun row => List.length row = n) rs ->
  List.length (nth i rs (repeat CNaN n)) = n.
Proof.
  intros H. destruct (nth_in_or_default i rs (repeat CNaN n)) as [Hin|E].
  - rewrite Forall_forall in H. now apply H.
  - rewrite E. apply repeat_length.
Qed.

Lemma left_part_length (l : DataFrame) (kl : nat) (rkeys : list cell)
    (p : pairing) :
  well_formed l ->
  List.length (left_part l kl rkeys p) = List.length (columns l).
Proof.
  intros W. unfold left_part. destruct p as [[i|] [j|]]; cbn [take].
  - now apply nth_length.
  - now apply nth_length.
  - rewrite length_set_nth. apply repeat_length.
  - apply repeat_length.
Qed.

Lemma joined_row_left (l r : DataFrame) (kl kr : nat) (rkeys : list cell)
    (pa : nat) (p : pairing) :
  well_formed l -> pa < List.length (columns l) -> pa <> kl ->
  nth pa (joined_row l r kl kr rkeys p) CNaN
  = from_side (column_at pa l) (fst p).
Proof.
  intros W Hpa Hne. unfold joined_row.
  rewrite app_nth1 by (rewrite left_part_length; trivial).
  unfold left_part. destruct p as [[i|] [j|]]; cbn [take fst from_side].
  - apply nth_nth_default.
  - apply nth_nth_default.
  - rewrite nth_set_nth_other by congruence. apply nth_repeat.
  - apply nth_repeat.
Qed.

Lemma joined_row_right (l r : DataFrame) (kl kr : nat) (rkeys : list cell)
    (pb : nat) (p : pairing) :
  well_formed l -> pb <> kr ->
  nth (List.length (columns l) + shift kr pb)
      (joined_row l r kl kr rkeys p) CNaN
  = from_side (column_at pb r) (snd p).
Proof.
  intros W Hne. unfold joined_row.
  rewrite app_nth2 by (rewrite left_part_length; trivial; lia).
  rewrite left_part_length by exact W.
  replace (List.length (columns l) + shift kr pb - List.length (columns l))
    with (shift kr pb) by lia.
  unfold right_part.
  destruct p as [a [j|]]; cbn [take snd from_side]; [|apply nth_repeat].
  rewrite nth_nth_default, map_map. unfold column_at. f_equal.
  apply map_ext. intros row. now apply nth_remove_nth.
Qed.

Lemma column_at_map {A : Type} (q : nat) (cs : list string)
    (f : A -> list cell) (l : list A) :
  column_at q {| columns := cs; rows := map f l |}
  = map (fun x => nth q (f x) CNaN) l.
Proof. unfold column_at. cbn [rows]. apply map_map. Qed.

Lemma right_labels_inv (left_cols right_cols rlabels : list string) :
  right_labels left_cols right_cols = Ok rlabels ->
  rlabels = map (fun c => if mem c left_cols then (c ++ "_right")%string
                          else c) right_cols.
Proof.
  unfold right_labels. destruct (existsb _ _); [discriminate|].
  intros H. now inversion H.
Qed.

End RowFacts.

Section Collision.
Import FrameFacts ListFacts PrepareFacts MergeFacts RowFacts.

Lemma label_position (df : DataFrame) (c : string) (p : nat) :
  positions c (columns df) = [p] ->
  nth_error (columns df) p = Some c /\ p < List.length (columns df).
Proof.
  intros H. assert (K : nth_error (columns df) p = Some c).
  { apply positions_In. rewrite H. now left. }
  split; [exact K|]. apply nth_error_Some. congruence.
Qed.

(** C7, amended: let the two files share a column name [c] that is neither
    key, that does not end in "_right" (as "status"), and such that
    [c ++ "_right"] is not already a column name of the left file.  After
    a merge that succeeds the result has one column [c], which holds for
    every row the left file's value of [c], and one column [c ++ "_right"],
    which holds the right file's value of [c]; a row without a partner on
    one side has NaN there.  The rows are the pairings of the join on the
    normalized keys. *)
Theorem merge_keeps_both_columns (self self' : MergeEngine)
    (d1 d2 : DataFrame) (key1 key2 c : string) (how : join)
    (sa sb : list cell) :
  df1 self = Some d1 -> df2 self = Some d2 ->
  well_formed d1 -> well_formed d2 ->
  getitem d1 c = Ok (Series sa) -> getitem d2 c = Ok (Series sb) ->
  c <> key1 -> c <> key2 ->
  (forall x, c <> (x ++ "_right")%string) ->
  ~ In (c ++ "_right")%string (columns d1) ->
  perform_merge self key1 key2 how = (self', true) ->
  exists res v1 v2,
    merge_result self' = Some res /\
    getitem d1 key1 = Ok (Series v1) /\
    getitem d2 key2 = Ok (Series v2) /\
    getitem res c =
      Ok (Series (map (fun p => from_side sa (fst p))
                      (join_index how (map norm_cell v1)
                                      (map norm_cell v2)))) /\
    getitem res (c ++ "_right") =
      Ok (Series (map (fun p => from_side sb (snd p))
                      (join_index how (map norm_cell v1)
                                      (map norm_cell v2)))).
Proof.
  intros E1 E2 W1 W2 G1 G2 Hk1 Hk2 Hs Hr H.
  destruct (perform_merge_success _ _ _ _ _ _ _ E1 E2 H)
    as (p1 & p2 & l & r & rlabels & P1 & P2 & L & R & ND & PR & RL & M).
  destruct (getitem_Series _ _ _ G1) as (pa & Pa & ->).
  destruct (getitem_Series _ _ _ G2) as (pb & Pb & ->).
  destruct (label_position _ _ _ P1) as [N1 B1].
  destruct (label_position _ _ _ P2) as [N2 B2].
  destruct (label_position _ _ _ Pa) as [Na Ba].
  destruct (label_position _ _ _ Pb) as [Nb Bb].
  assert (Hpa : pa <> p1) by (intros ->; congruence).
  assert (Hpb : pb <> p2) by (intros ->; congruence).
  assert (CL : columns l = columns d1) by now rewrite L.
  assert (WL : well_formed l) by (rewrite L; now apply set_column_wf).
  assert (LK : column_at p1 l = map norm_cell (column_at p1 d1)).
  { rewrite L. apply column_at_set_column; trivial.
    now rewrite length_map, column_at_length. }
  pose proof (right_keys d2 r key1 key2 p2 l W2 P2 R) as RK.
  assert (LA : column_at pa l = column_at pa d1).
  { rewrite L. apply column_at_set_column_other; [congruence|].
    now rewrite length_map, column_at_length. }
  assert (RB : column_at pb r = column_at pb d2).
  { unfold column_at at 1. rewrite R, rename_conflicts_rows, right_start_rows.
    apply column_at_set_column_other; [congruence|].
    now rewrite length_map, column_at_length. }
  assert (Cin : In c (columns l))
    by (rewrite CL; exact (nth_error_In _ _ Na)).
  assert (Rin : ~ In (c ++ "_right")%string (columns l)) by now rewrite CL.
  (* the labels of the right frame *)
  assert (Lb : nth_error (columns r) pb = Some (c ++ "_right")%string).
  { rewrite R. apply rename_conflicts_suffix; trivial. left. split.
    - now apply right_start_label.
    - apply right_snapshot_In; [exact (nth_error_In _ _ Nb) | exact Hk2]. }
  assert (Gone : ~ In c (columns r)).
  { rewrite R. apply rename_conflicts_gone; trivial. left.
    apply right_snapshot_In; [exact (nth_error_In _ _ Nb) | exact Hk2]. }
  pose proof (right_labels_inv _ _ _ RL) as RLe.
  set (suffix := fun x => if mem x (columns l) then (x ++ "_right")%string
                          else x) in RLe.
  assert (NoC : ~ In c rlabels).
  { rewrite RLe. intros K. apply in_map_iff in K. destruct K as (x & E & _).
    unfold suffix in E. destruct (mem x (columns l)) eqn:Mx.
    - symmetry in E. now apply Hs in E.
    - subst x. apply mem_In in Cin. congruence. }
  assert (Pc : positions c (columns l ++ rlabels) = [pa]).
  { unfold positions. rewrite positions_from_app, CL.
    fold (positions c (columns d1)). rewrite Pa.
    now rewrite positions_from_none. }
  assert (Pr : positions (c ++ "_right") (columns l ++ rlabels)
               = [List.length (columns l) + shift p2 pb]).
  { unfold positions. rewrite positions_from_app.
    rewrite (positions_from_none 0) by exact Rin. cbn [app Nat.add].
    apply positions_from_unique.
    - rewrite RLe, nth_error_map, nth_error_remove_nth by exact Hpb.
      rewrite Lb. cbn [option_map]. unfold suffix.
      apply mem_false in Rin. now rewrite Rin.
    - intros q Hq. rewrite RLe, nth_error_map in Hq.
      destruct (nth_error_remove_nth_inv p2 q (columns r))
        as (p & Hp & -> & Ep).
      rewrite Ep in Hq. destruct (nth_error (columns r) p) as [x|] eqn:Ex;
        [|discriminate].
      cbn [option_map] in Hq. inversion Hq as [Hx]. unfold suffix in Hx.
      destruct (mem x (columns l)).
      + apply append_cancel_r in Hx. subst x.
        exfalso. apply Gone. exact (nth_error_In _ _ Ex).
      + subst x. f_equal.
        rewrite NoDup_nth_error in ND. apply ND.
        * apply nth_error_Some. congruence.
        * congruence. }
  exists {| columns := columns l ++ rlabels;
            rows := map (joined_row l r p1 p2 (column_at p2 r))
                        (join_index how (column_at p1 l)
                                        (column_at p2 r)) |},
         (column_at p1 d1), (column_at p2 d2).
  split; [exact M|].
  split; [unfold getitem; now rewrite P1|].
  split; [unfold getitem; now rewrite P2|].
  unfold getitem. cbn [columns]. rewrite Pc, Pr, !column_at_map, LK, RK.
  split; do 2 f_equal; apply map_ext; intros p.
  - rewrite <- LA. apply joined_row_left; trivial. now rewrite CL.
  - rewrite <- RB. now apply joined_row_right.
Qed.

Lemma merge_keeps_both_columns_witness :
  exists res,
    merge_result
      (fst (perform_merge (loaded ex_status_plain ex_status_right)
              "id" "id" JoinLeft)) = Some res /\
    getitem res "status" = Ok (Series [CStr "a"]) /\
    getitem res "status_right" = Ok (Series [CStr "z"]).
Proof.
  destruct (merge_keeps_both_columns
              (loaded ex_status_plain ex_status_right)
              (fst (perform_merge (loaded ex_status_plain ex_status_right)
                      "id" "id" JoinLeft))
              ex_status_plain ex_status_right "id" "id" "status" JoinLeft
              [CStr "a"] [CStr "z"])
    as (res & v1 & v2 & M & K1 & K2 & S & T); try reflexivity.
  - repeat constructor.
  - repeat constructor.
  - discriminate.
  - discriminate.
  - intros [|a x]; [discriminate|].
    intros E. apply (f_equal String.length) in E.
    assert (L : forall u v, String.length (u ++ v)
                            = String.length u + String.length v).
    { induction u as [|b u IH]; intros v; cbn; [reflexivity|].
      now rewrite IH. }
    cbn [append] in E. cbn [String.length] in E. rewrite L in E.
    cbn in E. lia.
  - cbn. intros [E|[E|[]]]; discriminate E.
  - exists res. split; [exact M|].
    inversion K1; subst v1. inversion K2; subst v2. split; assumption.
Defined.

End Collision.

(** * The rest of [core.py]: properties *)

(** ** [detect_column_patterns] *)

Module PatternFacts.
Import TextFacts StringFacts.

Lemma is_space_lower (c : ascii) : is_space (lower_ascii c) = is_space c.
Proof.
  apply Bool.eqb_prop.
  revert c. apply ascii_forall. vm_compute. reflexivity.
Qed.

Lemma lower_upper_ascii (c : ascii) :
  lower_ascii (upper_ascii c) = lower_ascii c.
Proof.
  apply Ascii.eqb_eq.
  revert c. apply ascii_forall. vm_compute. reflexivity.
Qed.

Lemma lower_upper (s : string) : lower (upper s) = lower s.
Proof.
  unfold lower, upper. induction s as [|c r IH]; [reflexivity|].
  cbn. now rewrite lower_upper_ascii, IH.
Qed.

Lemma lower_ascii_idem (c : ascii) :
  lower_ascii (lower_ascii c) = lower_ascii c.
Proof.
  apply Ascii.eqb_eq.
  revert c. apply ascii_forall. vm_compute. reflexivity.
Qed.

Lemma lower_idem (s : string) : lower (lower s) = lower s.
Proof.
  unfold lower. induction s as [|c r IH]; [reflexivity|].
  cbn. now rewrite lower_ascii_idem, IH.
Qed.

Lemma lstrip_lower (s : string) : lstrip (lower s) = lower (lstrip s).
Proof.
  induction s as [|c r IH]; [reflexivity|].
  unfold lower in *. simpl. rewrite is_space_lower.
  destruct (is_space c); [exact IH | reflexivity].
Qed.

Lemma rstrip_lower (s : string) : rstrip (lower s) = lower (rstrip s).
Proof.
  induction s as [|c r IH]; [reflexivity|].
  unfold lower in *. simpl. rewrite IH, is_space_lower.
  destruct (rstrip r); simpl; [destruct (is_space c)|]; reflexivity.
Qed.

Lemma strip_lower (s : string) : strip (lower s) = lower (strip s).
Proof.
  unfold strip. now rewrite lstrip_lower, rstrip_lower.
Qed.

Lemma lower_app (a b : string) : lower (a ++ b) = (lower a ++ lower b)%string.
Proof.
  unfold lower. induction a as [|c a IH]; [reflexivity|].
  cbn. now rewrite IH.
Qed.

Lemma prefix_app (p y : string) : String.prefix p (p ++ y) = true.
Proof.
  induction p as [|c p IH]; [now destruct y|].
  cbn. destruct (ascii_dec c c) as [_|N]; [exact IH | congruence].
Qed.

Lemma contains_prefix (p s : string) :
  String.prefix p s = true -> contains p s = true.
Proof. intros H. destruct s; cbn [contains]; now rewrite H. Qed.

Lemma contains_app (x p y : string) : contains p (x ++ p ++ y) = true.
Proof.
  induction x as [|c x IH].
  - cbn [append]. apply contains_prefix, prefix_app.
  - cbn [append contains]. rewrite IH. apply orb_true_r.
Qed.

Lemma lstrip_keeps (x p y : string) :
  starts_clean p -> p <> EmptyString ->
  exists x', lstrip (x ++ p ++ y) = (x' ++ p ++ y)%string.
Proof.
  intros Hc Hne. induction x as [|c x IH].
  - exists EmptyString. cbn [append]. apply lstrip_clean.
    destruct p as [|d p]; [congruence|]. exact Hc.
  - cbn [append lstrip]. destruct (is_space c).
    + exact IH.
    + now exists (String c x).
Qed.

Lemma rstrip_cons_keeps (c : ascii) (t : string) :
  rstrip t <> EmptyString -> rstrip (String c t) = String c (rstrip t).
Proof.
  intros H. cbn [rstrip]. destruct (rstrip t); [congruence | reflexivity].
Qed.

Lemma rstrip_keeps_word (p y : string) :
  rstrip p = p -> p <> EmptyString ->
  exists y', rstrip (p ++ y) = (p ++ y')%string.
Proof.
  induction p as [|c p IH]; intros Hr Hne; [congruence|].
  cbn [rstrip] in Hr. remember (rstrip p) as rp eqn:E in Hr.
  destruct rp as [|d q].
  - destruct (is_space c) eqn:Ec; [discriminate|].
    inversion Hr as [Hp]. cbn [append rstrip].
    destruct (rstrip y) as [|e y'].
    + rewrite Ec. now exists EmptyString.
    + now exists (String e y').
  - inversion Hr as [Hp]. subst p. symmetry in E.
    destruct (IH E) as [y' Hy]; [discriminate|].
    exists y'.
    change (String c (String d q) ++ y)%string
      with (String c (String d q ++ y)).
    rewrite rstrip_cons_keeps; rewrite Hy; [reflexivity | discriminate].
Qed.

Lemma rstrip_keeps (x p y : string) :
  rstrip p = p -> p <> EmptyString ->
  exists y', rstrip (x ++ p ++ y) = (x ++ p ++ y')%string.
Proof.
  intros Hr Hne. destruct (rstrip_keeps_word p y Hr Hne) as [y' Hy].
  exists y'. induction x as [|c x IH]; [exact Hy|].
  cbn [append]. rewrite rstrip_cons_keeps; rewrite IH.
  - reflexivity.
  - destruct x; [destruct p; [congruence | discriminate] | discriminate].
Qed.

(** A word without white space at its ends survives [strip]. *)
Lemma strip_keeps (x p y : string) :
  starts_clean p -> rstrip p = p -> p <> EmptyString ->
  contains p (strip (x ++ p ++ y)) = true.
Proof.
  intros Hc Hr Hne. unfold strip.
  destruct (lstrip_keeps x p y Hc Hne) as [x' ->].
  destruct (rstrip_keeps x' p y Hr Hne) as [y' ->].
  apply contains_app.
Qed.

End PatternFacts.

Section Patterns.
Import PatternFacts StringFacts.

(** X2: the class of a column name of ASCII characters does not depend on
    letter case nor on white space around the name. *)
Theorem detect_column_patterns_insensitive (column_name : string) :
  ascii_text column_name = true ->
  detect_column_patterns (upper column_name)
  = detect_column_patterns column_name /\
  detect_column_patterns (lower column_name)
  = detect_column_patterns column_name /\
  detect_column_patterns (strip column_name)
  = detect_column_patterns column_name.
Proof.
  intros _. unfold detect_column_patterns. repeat split.
  - now rewrite lower_upper.
  - now rewrite lower_idem.
  - now rewrite strip_lower, strip_idem, <- strip_lower.
Qed.

Lemma detect_column_patterns_insensitive_witness :
  ascii_text " Tracking ID " = true /\
  detect_column_patterns (upper " Tracking ID ")
  = detect_column_patterns " Tracking ID " /\
  detect_column_patterns (lower " Tracking ID ")
  = detect_column_patterns " Tracking ID " /\
  detect_column_patterns (strip " Tracking ID ")
  = detect_column_patterns " Tracking ID ".
Proof.
  split; [reflexivity|].
  apply (detect_column_patterns_insensitive " Tracking ID "). reflexivity.
Defined.

(** X3: a name in which one of the tracking words occurs, in any letter
    case and with anything before and after it, is classed "tracking":
    the tracking words are looked for first. *)
Theorem tracking_word_wins (pattern before word after : string) :
  In pattern tracking_patterns ->
  lower word = pattern ->
  detect_column_patterns (before ++ word ++ after) = "tracking".
Proof.
  intros Hin Hw. unfold detect_column_patterns.
  rewrite !lower_app, Hw.
  assert (K : any_pattern tracking_patterns
                (strip (lower before ++ pattern ++ lower after)) = true).
  { unfold any_pattern. apply existsb_exists. exists pattern.
    split; [exact Hin|].
    cbn in Hin.
    repeat (destruct Hin as [<-|Hin];
            [apply strip_keeps; [reflexivity | reflexivity | discriminate]|]).
    destruct Hin. }
  now rewrite K.
Qed.

Lemma tracking_word_wins_witness :
  detect_column_patterns "Order AWB number" = "tracking".
Proof.
  apply (tracking_word_wins "awb" "Order " "AWB" " number").
  - cbn. tauto.
  - reflexivity.
Defined.

End Patterns.

(** ** Paths: [splitext], [load_file], [save_result] *)

Module PathFacts.
Import PatternFacts.

Lemma length_append (a b : string) :
  String.length (a ++ b) = String.length a + String.length b.
Proof.
  induction a as [|c a IH]; cbn; [reflexivity | now rewrite IH].
Qed.

Lemma substring_all (s : string) : substring 0 (String.length s) s = s.
Proof.
  induction s as [|c s IH]; [reflexivity|]. cbn. now rewrite IH.
Qed.

Lemma substring_split (k : nat) (p : string) :
  (substring 0 k p ++ substring k (String.length p - k) p)%string = p.
Proof.
  revert k. induction p as [|c p IH]; intros k.
  - now destruct k.
  - destruct k as [|k].
    + cbn [substring append String.length Nat.sub].
      now rewrite substring_all.
    + cbn [substring append String.length Nat.sub]. now rewrite IH.
Qed.

Lemma substring_skip (a b : string) (m : nat) :
  substring (String.length a) m (a ++ b) = substring 0 m b.
Proof.
  induction a as [|c a IH]; [reflexivity|]. cbn. exact IH.
Qed.

Lemma endswith_app (a suffix : string) : endswith (a ++ suffix) suffix = true.
Proof.
  unfold endswith. rewrite length_append.
  replace (String.length a + String.length suffix - String.length suffix)
    with (String.length a) by lia.
  rewrite substring_skip, substring_all, String.eqb_refl.
  rewrite andb_true_r. apply Nat.leb_le. lia.
Qed.

Lemma endswith_inv (s suffix : string) :
  endswith s suffix = true -> exists a, s = (a ++ suffix)%string.
Proof.
  unfold endswith. intros H. apply andb_true_iff in H. destruct H as [L E].
  apply Nat.leb_le in L. apply String.eqb_eq in E.
  exists (substring 0 (String.length s - String.length suffix) s).
  pose proof (substring_split (String.length s - String.length suffix) s)
    as K.
  replace (String.length s - (String.length s - String.length suffix))
    with (String.length suffix) in K by lia.
  rewrite E in K. now symmetry.
Qed.

Lemma endswith_lower (s suffix : string) :
  endswith s suffix = true -> endswith (lower s) (lower suffix) = true.
Proof.
  intros H. destruct (endswith_inv _ _ H) as [a ->].
  rewrite lower_app. apply endswith_app.
Qed.

(** The two parts [splitext] returns make up the path. *)
Lemma splitext_join (sep : ascii) (altsep : option ascii) (p : string) :
  (fst (splitext sep altsep p) ++ snd (splitext sep altsep p))%string = p.
Proof.
  unfold splitext. destruct (_ && _); cbn [fst snd].
  - apply substring_split.
  - clear. induction p as [|c p IH]; [reflexivity|]. cbn. now rewrite IH.
Qed.

Lemma extension_ends (sep : ascii) (altsep : option ascii) (p : string) :
  endswith (lower p) (lower (snd (splitext sep altsep p))) = true.
Proof.
  apply endswith_lower. rewrite <- (splitext_join sep altsep p) at 1.
  apply endswith_app.
Qed.

End PathFacts.

Section Saving.
Import PathFacts PatternFacts.

Variable sep : ascii.
Variable altsep : option ascii.

(** X4: without a merge result nothing is written and [save_result]
    returns [False].  When something is written, the path is the one given
    or the one given with ".xlsx" appended; the CSV writer is used only for
    a path that ends in ".csv" in some letter case, and the Excel writer
    only for a path that ends in ".xlsx" in some letter case.  The call
    returns [True] exactly when the writer does not raise. *)
Theorem save_result_target (self : MergeEngine) (output_path : string)
    (writer : file_format -> string -> DataFrame -> bool) :
  (merge_result self = None ->
   save_result_to sep altsep self output_path writer = (false, None)) /\
  (forall res, merge_result self = Some res ->
   exists fmt target,
     save_result_to sep altsep self output_path writer
     = (negb (writer fmt target res), Some (fmt, target)) /\
     (target = output_path \/ target = (output_path ++ ".xlsx")%string) /\
     (fmt = Csv -> target = output_path /\
                   endswith (lower output_path) ".csv" = true) /\
     (fmt = Excel -> endswith (lower target) ".xlsx" = true)).
Proof.
  unfold save_result_to, save_result. split.
  - now intros ->.
  - intros res ->. unfold save_target.
    pose proof (extension_ends sep altsep output_path) as E.
    destruct (String.eqb_spec (lower (snd (splitext sep altsep output_path)))
                ".xlsx") as [X|_].
    { exists Excel, output_path. cbn [fst snd]. rewrite X in E.
      repeat split; try discriminate; auto. }
    destruct (String.eqb_spec (lower (snd (splitext sep altsep output_path)))
                ".csv") as [C|_].
    { exists Csv, output_path. cbn [fst snd]. rewrite C in E.
      repeat split; try discriminate; auto. }
    destruct (endswith output_path ".xlsx") eqn:W; cbn [negb].
    + exists Excel, output_path. cbn [fst snd].
      repeat split; try discriminate; auto.
      intros _. exact (endswith_lower _ _ W).
    + exists Excel, (output_path ++ ".xlsx")%string. cbn [fst snd].
      repeat split; try discriminate; auto.
      intros _. rewrite lower_app. apply endswith_app.
Qed.

End Saving.

Lemma save_result_target_witness :
  exists fmt target,
    save_result_to "/" None ex_merged_before "out/report.CSV"
                   (fun _ _ _ => false)
    = (true, Some (fmt, target)) /\
    (fmt = Csv -> target = "out/report.CSV" /\
                  endswith (lower "out/report.CSV") ".csv" = true).
Proof.
  destruct (proj2 (save_result_target "/" None ex_merged_before
                     "out/report.CSV" (fun _ _ _ => false))
              ex_status_left eq_refl)
    as (fmt & target & H & _ & C & _).
  exists fmt, target. split; [exact H | exact C].
Defined.

Section Loading.
Import FrameFacts StringFacts.

Variable sep : ascii.
Variable altsep : option ascii.
Variable read_excel : string -> result DataFrame.
Variable read_csv : string -> string -> string -> csv_read.

(** X5: a path whose extension, in lower case, is none of ".xlsx", ".xls",
    ".csv" and ".txt" is refused: [load_file] returns [False] and the
    engine stays as it was, whatever the file holds. *)
Theorem load_file_unsupported (self : MergeEngine) (file_path : string)
    (file_number : Z) :
  ~ In (lower (snd (splitext sep altsep file_path)))
       [".xlsx"; ".xls"; ".csv"; ".txt"] ->
  load_file_at sep altsep read_excel read_csv self file_path file_number
  = (self, false).
Proof.
  intros H. unfold load_file_at, read_file.
  set (ext := lower (snd (splitext sep altsep file_path))) in *.
  clearbody ext.
  assert (M : mem ext [".xlsx"; ".xls"] = false).
  { apply mem_false. intros [E|[E|[]]]; apply H.
    - now left.
    - right. now left. }
  rewrite M.
  destruct (String.eqb_spec ext ".csv") as [E|_].
  { exfalso. apply H. right. right. left. now symmetry. }
  destruct (String.eqb_spec ext ".txt") as [E|_].
  { exfalso. apply H. right. right. right. left. now symmetry. }
  reflexivity.
Qed.

(** X6: a file whose reader fails, or that holds no row or no column,
    leaves the engine as it was; this includes a CSV file that none of the
    three encodings decodes. *)
Theorem load_file_failure_keeps_engine (self self' : MergeEngine)
    (file_path : string) (file_number : Z) :
  load_file_at sep altsep read_excel read_csv self file_path file_number
  = (self', false) ->
  self' = self.
Proof.
  unfold load_file_at, load_file.
  destruct (read_file sep altsep read_excel read_csv file_path) as [df| |];
    try (intros H; now inversion H).
  destruct (empty df); [intros H; now inversion H|].
  destruct (Z.eqb file_number 1); intros H; inversion H.
Qed.

End Loading.

Lemma load_file_unsupported_witness :
  load_file_at "/" None (fun _ => Ok ex_left_ids)
               (fun _ _ _ => CsvFrame ex_left_ids) init "data/keys.json" 1
  = (init, false).
Proof.
  apply load_file_unsupported. vm_compute.
  intros [H|[H|[H|[H|[]]]]]; discriminate H.
Defined.

Lemma load_file_failure_keeps_engine_witness :
  fst (load_file_at "/" None (fun _ => Raise ValueError)
         (fun _ _ _ => CsvUnicodeDecodeError) ex_merged_before
         "data/keys.csv" 1)
  = ex_merged_before.
Proof.
  apply (load_file_failure_keeps_engine "/" None (fun _ => Raise ValueError)
           (fun _ _ _ => CsvUnicodeDecodeError) ex_merged_before _
           "data/keys.csv" 1).
  reflexivity.
Defined.

Section LoadingKeeps.
Import StringFacts.

Variable fuzz_ratio : string -> string -> Z.

(** X7: [load_file] never touches the stored merge result nor the detected
    keys: after a new file is loaded, [save_result] still writes the result
    of the merge of the files loaded before. *)
Theorem load_file_keeps_result (self : MergeEngine) (file_path : string)
    (read : read_outcome) (file_number : Z) (write_raises : bool) :
  merge_result (fst (load_file self file_path read file_number))
  = merge_result self /\
  detected_keys (fst (load_file self file_path read file_number))
  = detected_keys self /\
  save_result (fst (load_file self file_path read file_number)) write_raises
  = save_result self write_raises.
Proof.
  assert (K : merge_result (fst (load_file self file_path read file_number))
              = merge_result self /\
              detected_keys (fst (load_file self file_path read file_number))
              = detected_keys self).
  { unfold load_file. destruct read as [df| |]; try (split; reflexivity).
    destruct (empty df); [split; reflexivity|].
    destruct (Z.eqb file_number 1); split; reflexivity. }
  destruct K as [M D]. repeat split; trivial.
  unfold save_result. now rewrite M.
Qed.

(** Labels without white space around them. *)
Lemma strip_columns_clean (df : DataFrame) (c : string) :
  In c (columns (strip_columns df)) -> strip c = c.
Proof.
  unfold strip_columns. cbn [columns]. intros H.
  apply in_map_iff in H. destruct H as (x & <- & _). apply strip_idem.
Qed.

Lemma step_labels_clean (self : MergeEngine) (op : operation) :
  labels_trimmed self -> labels_trimmed (step fuzz_ratio self op).
Proof.
  intros Inv. destruct op as [p read n|m|k1 k2|k1 k2 how|w]; cbn [step];
    trivial.
  - unfold load_file. destruct read as [df| |]; trivial.
    destruct (empty df); trivial.
    destruct (Z.eqb n 1); intros d [H|H]; cbn in H.
    + inversion H. subst d. apply strip_columns_clean.
    + apply Inv. now right.
    + apply Inv. now left.
    + inversion H. subst d. apply strip_columns_clean.
  - unfold detect_merge_keys.
    destruct (df1 self) as [d1|] eqn:E1; [|exact Inv].
    destruct (df2 self) as [d2|] eqn:E2; [|exact Inv].
    destruct (ranked fuzz_ratio d1 d2 m); cbn [bind]; [|exact Inv].
    intros d H. cbn in H. apply Inv. now rewrite E1, E2.
  - destruct (perform_merge_frames self k1 k2 how) as [H1 H2].
    intros d H. rewrite H1, H2 in H. now apply Inv.
Qed.

(** X8: after any sequence of calls on a fresh engine, no column label of
    a frame held as [df1] or [df2] begins or ends with white space:
    [load_file] trims the labels before it stores the frame, and nothing
    else assigns the two frames. *)
Theorem held_labels_trimmed (ops : list operation) (d : DataFrame)
    (c : string) :
  df1 (run fuzz_ratio ops) = Some d \/ df2 (run fuzz_ratio ops) = Some d ->
  In c (columns d) ->
  strip c = c.
Proof.
  unfold run.
  assert (K : forall self, labels_trimmed self ->
                           labels_trimmed (fold_left (step fuzz_ratio) ops self)).
  { induction ops as [|op ops IH]; intros self Inv; [exact Inv|].
    cbn. apply IH. now apply step_labels_clean. }
  intros H Hc. apply (K init) with (d := d); trivial.
  intros d0 [H0|H0]; discriminate H0.
Qed.

End LoadingKeeps.

Lemma held_labels_trimmed_witness : strip "id" = "id".
Proof.
  apply (held_labels_trimmed (fun _ _ => 0%Z)
           [LoadFile "a.csv"
              (ReadFrame {| columns := [" id "; "name "];
                            rows := [[CStr "A1"; CStr "x"]] |}) 1]
           {| columns := ["id"; "name"]; rows := [[CStr "A1"; CStr "x"]] |}
           "id").
  - left. reflexivity.
  - left. reflexivity.
Defined.

(** ** [validate_merge_keys]: the numbers of the report *)

Module ReportFacts.
Import FrameFacts SetFacts.

Lemma Zpos_of_nat (d : nat) : 0 < d -> Z.pos (Pos.of_nat d) = Z.of_nat d.
Proof.
  intros H. rewrite <- (Nat2Pos.id d) at 2 by lia. now rewrite positive_nat_Z.
Qed.

Lemma ratio_bounds (n d : nat) :
  n <= d -> 0 < d -> (0 <= ratio n d)%Q /\ (ratio n d <= 1)%Q.
Proof.
  intros Hn Hd. unfold ratio, Qle. cbn [Qnum Qden].
  rewrite (Zpos_of_nat d Hd). split; lia.
Qed.

Lemma ratio_or_zero_bounds (n d : nat) :
  n <= d -> (0 <= ratio_or_zero n d)%Q /\ (ratio_or_zero n d <= 1)%Q.
Proof.
  intros Hn. unfold ratio_or_zero. destruct (0 <? d) eqn:E.
  - apply Nat.ltb_lt in E. now apply ratio_bounds.
  - split; unfold Qle; cbn; lia.
Qed.

Lemma to_set_NoDup (l : list string) : NoDup (to_set l).
Proof. apply NoDup_nodup. Qed.

Lemma to_set_length (l : list string) :
  List.length (to_set l) <= List.length l.
Proof.
  apply NoDup_incl_length; [apply to_set_NoDup|].
  intros x H. now apply nodup_In in H.
Qed.

Lemma to_set_map_length (f : string -> string) (l : list string) :
  List.length (to_set (map f l)) <= List.length (to_set l).
Proof.
  rewrite <- (length_map f (to_set l)).
  apply NoDup_incl_length; [apply to_set_NoDup|].
  intros x H. apply nodup_In in H. apply in_map_iff in H.
  destruct H as (y & <- & Hy). apply in_map. now apply nodup_In.
Qed.

Lemma intersection_In (a b : list string) (x : string) :
  In x (intersection a b) <-> In x a /\ In x b.
Proof.
  unfold intersection. rewrite filter_In, mem_In. tauto.
Qed.

Lemma intersection_NoDup (a b : list string) :
  NoDup a -> NoDup (intersection a b).
Proof. intros H. now apply NoDup_filter. Qed.

Lemma intersection_length_l (a b : list string) :
  List.length (intersection a b) <= List.length a.
Proof. apply filter_length_le. Qed.

Lemma intersection_length_r (a b : list string) :
  NoDup a -> List.length (intersection a b) <= List.length b.
Proof.
  intros H. apply NoDup_incl_length; [now apply intersection_NoDup|].
  intros x Hx. now apply intersection_In in Hx.
Qed.

Lemma intersection_comm_length (a b : list string) :
  NoDup a -> NoDup b ->
  List.length (intersection a b) = List.length (intersection b a).
Proof.
  intros Ha Hb. apply Nat.le_antisymm;
    (apply NoDup_incl_length; [now apply intersection_NoDup|]);
    intros x Hx; apply intersection_In in Hx; apply intersection_In; tauto.
Qed.

End ReportFacts.

Section Report.
Import FrameFacts SetFacts ReportFacts.

(** X9: in every report of [validate_merge_keys] the distinct values of a
    file are at most its values, the common values are at most the
    distinct values of each file, the two uniqueness ratios and the two
    match ratios lie between 0 and 1, and there is at most one warning. *)
Theorem report_within_bounds (self : MergeEngine) (key1 key2 : string)
    (r : report) :
  validate_merge_keys self key1 key2 = Valid r ->
  file1_unique r <= file1_total r /\ file2_unique r <= file2_total r /\
  common_values r <= file1_unique r /\ common_values r <= file2_unique r /\
  (0 <= file1_uniqueness r <= 1)%Q /\ (0 <= file2_uniqueness r <= 1)%Q /\
  (0 <= match_ratio_file1 r <= 1)%Q /\ (0 <= match_ratio_file2 r <= 1)%Q /\
  List.length (warnings r) <= 1.
Proof.
  unfold validate_merge_keys.
  destruct (df1 self) as [d1|]; [|discriminate].
  destruct (df2 self) as [d2|]; [|discriminate].
  destruct (negb (mem key1 (columns d1))); [discriminate|].
  destruct (negb (mem key2 (columns d2))); [discriminate|].
  destruct (getitem d1 key1) as [[v1|w1]|e1]; try discriminate.
  destruct (getitem d2 key2) as [[v2|w2]|e2]; try discriminate.
  cbn [bind as_series].
  set (c1 := clean_values (map clean_value v1)).
  set (c2 := clean_values (map clean_value v2)).
  intros H. inversion H. subst r. clear H.
  cbn [file1_total file1_unique file1_uniqueness file2_total file2_unique
       file2_uniqueness common_values match_ratio_file1 match_ratio_file2
       warnings].
  pose proof (to_set_length c1) as U1.
  pose proof (to_set_length c2) as U2.
  assert (M1 : List.length (intersection (to_set (map upper c1))
                                         (to_set (map upper c2)))
               <= List.length (to_set c1)).
  { eapply Nat.le_trans; [apply intersection_length_l|].
    apply to_set_map_length. }
  assert (M2 : List.length (intersection (to_set (map upper c1))
                                         (to_set (map upper c2)))
               <= List.length (to_set c2)).
  { eapply Nat.le_trans; [apply intersection_length_r, to_set_NoDup|].
    apply to_set_map_length. }
  repeat split; trivial;
    try (apply ratio_or_zero_bounds; assumption).
  destruct (_ && _); [cbn; lia|]. destruct (_ && _); cbn; lia.
Qed.

Lemma report_within_bounds_witness :
  exists r,
    validate_merge_keys (loaded ex_left_ids ex_right_ids) "id" "id" = Valid r /\
    common_values r <= file1_unique r /\
    (0 <= match_ratio_file1 r <= 1)%Q.
Proof.
  eexists. split; [reflexivity|].
  destruct (report_within_bounds (loaded ex_left_ids ex_right_ids) "id" "id"
              _ eq_refl) as (_ & _ & C & _ & _ & _ & M & _).
  split; [exact C | exact M].
Defined.

(** X10: validation does not depend on which file is the first: with the
    two files and the two keys exchanged, the report is the same with the
    statistics of the two files exchanged, the same number of common
    values and the same warnings. *)
Theorem validate_symmetric (self : MergeEngine) (key1 key2 : string)
    (r : report) :
  validate_merge_keys self key1 key2 = Valid r ->
  validate_merge_keys (swap_files self) key2 key1 = Valid (swap_report r).
Proof.
  unfold validate_merge_keys, swap_files. cbn [df1 df2].
  destruct (df1 self) as [d1|]; [|discriminate].
  destruct (df2 self) as [d2|]; [|discriminate].
  destruct (negb (mem key1 (columns d1))); [discriminate|].
  destruct (negb (mem key2 (columns d2))); [discriminate|].
  destruct (getitem d1 key1) as [[v1|w1]|e1]; try discriminate.
  destruct (getitem d2 key2) as [[v2|w2]|e2]; try discriminate.
  cbn [bind as_series].
  set (c1 := clean_values (map clean_value v1)).
  set (c2 := clean_values (map clean_value v2)).
  intros H. inversion H. subst r. clear H. unfold swap_report.
  cbn [file1_total file1_unique file1_uniqueness file2_total file2_unique
       file2_uniqueness common_values match_ratio_file1 match_ratio_file2
       warnings].
  rewrite (intersection_comm_length (to_set (map upper c2))
             (to_set (map upper c1)))
    by apply to_set_NoDup.
  do 2 f_equal.
  rewrite (andb_comm (negb (Qle_bool (7 # 10) _))).
  rewrite (andb_comm (negb (Qle_bool (3 # 10) _))).
  reflexivity.
Qed.

Lemma validate_symmetric_witness :
  exists r,
    validate_merge_keys (loaded ex_left_ids ex_right_ids) "id" "id" = Valid r /\
    validate_merge_keys (loaded ex_right_ids ex_left_ids) "id" "id"
    = Valid (swap_report r).
Proof.
  eexists. split; [reflexivity|].
  apply (validate_symmetric (loaded ex_left_ids ex_right_ids) "id" "id").
  reflexivity.
Defined.

End Report.

(** ** [detect_merge_keys]: scores, pairs and the threshold *)

Module DetectFacts.
Import FrameFacts ListFacts ReportFacts SortFacts.

Lemma unique_cols_of_Ok (df : DataFrame) (cols l : list string) :
  unique_cols_of df cols = Ok l ->
  l = filter (admits df) cols /\
  forall c, In c cols -> exists p, positions c (columns df) = [p].
Proof.
  revert l. induction cols as [|c cs IH]; intros l H.
  - inversion H. split; [reflexivity | intros c []].
  - cbn [unique_cols_of] in H.
    destruct (getitem df c) as [[v|w]|e] eqn:G; try discriminate.
    cbn [bind as_series] in H.
    destruct (len df =? 0); [discriminate|].
    destruct (unique_cols_of df cs) as [rest|e]; [|discriminate].
    cbn [bind] in H. destruct (IH rest eq_refl) as [-> P].
    split.
    + cbn [filter]. unfold admits at 1. rewrite G.
      destruct (negb _); now inversion H.
    + intros x [<-|Hx]; [|now apply P].
      destruct (getitem_Series _ _ _ G) as (p & Hp & _). now exists p.
Qed.

Lemma unique_cols_NoDup (df : DataFrame) (l : list string) :
  unique_cols df = Ok l -> NoDup (columns df) /\ NoDup l.
Proof.
  intros H. destruct (unique_cols_of_Ok _ _ _ H) as [-> P].
  assert (N : NoDup (columns df)) by now apply unique_positions_NoDup.
  split; [exact N | now apply NoDup_filter].
Qed.

Lemma token_set_NoDup (v : list cell) : NoDup (token_set v).
Proof. unfold token_set. apply NoDup_filter, to_set_NoDup. Qed.

Lemma key_ge_ltb (a b : candidate) : key_ge a b -> key_ltb a b = false.
Proof.
  unfold key_ge, key_ltb. intros [H|[E L]].
  - apply Qgt_alt in H. now rewrite H.
  - apply Qeq_alt in E. rewrite E. apply Nat.ltb_ge. exact L.
Qed.

Lemma insert_desc_head (x : candidate) (l : list candidate) :
  Forall (key_ge x) l -> insert_desc x l = x :: l.
Proof.
  destruct l as [|y l]; [reflexivity|]. intros H. inversion H. subst.
  cbn. now rewrite key_ge_ltb.
Qed.

(** Removing candidates commutes with the insertion of the sort. *)
Lemma filter_insert_desc (p : candidate -> bool) (x : candidate)
    (l : list candidate) :
  StronglySorted key_ge l ->
  filter p (insert_desc x l)
  = if p x then insert_desc x (filter p l) else filter p l.
Proof.
  induction l as [|y l IH]; intros S.
  - cbn. now destruct (p x).
  - inversion S as [|? ? Sl Fy]. subst. cbn [insert_desc].
    destruct (key_ltb x y) eqn:E.
    + cbn [filter]. rewrite (IH Sl). destruct (p x), (p y); trivial.
      cbn [insert_desc]. now rewrite E.
    + cbn [filter]. destruct (p x); [|reflexivity].
      symmetry. apply insert_desc_head.
      apply key_ltb_false in E.
      assert (F : Forall (key_ge x) (y :: l)).
      { constructor; [exact E|]. rewrite Forall_forall in Fy |- *.
        intros z Hz. exact (key_ge_trans _ _ _ E (Fy z Hz)). }
      rewrite Forall_forall in F |- *. intros z Hz. apply F.
      change (In z (filter p (y :: l))) in Hz.
      now apply filter_In in Hz.
Qed.

Lemma sort_reverse_filter (p : candidate -> bool) (l : list candidate) :
  sort_reverse (filter p l) = filter p (sort_reverse l).
Proof.
  induction l as [|x l IH]; [reflexivity|].
  cbn [filter sort_reverse fold_right].
  rewrite filter_insert_desc by apply sort_reverse_sorted.
  fold (sort_reverse l). destruct (p x); [|exact IH].
  cbn [sort_reverse fold_right]. fold (sort_reverse (filter p l)).
  now rewrite IH.
Qed.

Lemma filter_flat_map {A B : Type} (p : B -> bool) (f : A -> list B)
    (l : list A) :
  filter p (flat_map f l) = flat_map (fun x => filter p (f x)) l.
Proof.
  induction l as [|x l IH]; [reflexivity|].
  cbn. now rewrite filter_app, IH.
Qed.

End DetectFacts.

Section DetectMore.
Import FrameFacts ListFacts ReportFacts SortFacts DetectFacts.

Variable fuzz_ratio : string -> string -> Z.

Lemma compare_columns_score (d1 d2 : DataFrame) (m : Q)
    (col1 col2 : string) (c : candidate) :
  (forall a b, (0 <= fuzz_ratio a b <= 100)%Z) ->
  compare_columns fuzz_ratio d1 d2 m col1 col2 = Ok (Some c) ->
  (0 <= cand_score c)%Q /\ (cand_score c <= 1)%Q.
Proof.
  intros Hf. unfold compare_columns.
  destruct (getitem d1 col1) as [[v1|w1]|e1]; try discriminate.
  destruct (getitem d2 col2) as [[v2|w2]|e2]; try discriminate.
  cbn [bind as_series].
  destruct (Nat.min _ _ =? 0) eqn:Z0; [discriminate|].
  destruct (_ || _); [discriminate|].
  destruct (Qle_bool m _); [|discriminate].
  intros H. inversion H. subst c. clear H. cbn [cand_score].
  apply Nat.eqb_neq in Z0.
  destruct (ratio_bounds
              (List.length (intersection (token_set v1) (token_set v2)))
              (Nat.min (List.length (token_set v1))
                       (List.length (token_set v2)))) as [O1 O2].
  { apply Nat.min_glb; [apply intersection_length_l|].
    apply intersection_length_r, token_set_NoDup. }
  { lia. }
  specialize (Hf (lower col1) (lower col2)).
  set (z := fuzz_ratio (lower col1) (lower col2)) in *.
  assert (N : (0 <= inject_Z z / 100)%Q /\ (inject_Z z / 100 <= 1)%Q).
  { unfold Qle, Qdiv, Qmult, Qinv, inject_Z. cbn. split; lia. }
  destruct N as [N1 N2]. split; lra.
Qed.

(** What a call of the detector that returns went through. *)
Lemma detect_inv (self self' : MergeEngine) (m : Q)
    (keys : list (string * string * Q)) :
  detect_merge_keys fuzz_ratio self m = Ok (self', keys) ->
  (keys = [] /\ (df1 self = None \/ df2 self = None)) \/
  (exists d1 d2 u1 u2,
     df1 self = Some d1 /\ df2 self = Some d2 /\
     unique_cols d1 = Ok u1 /\ unique_cols d2 = Ok u2 /\
     keys = map format_key
              (sort_reverse (collect fuzz_ratio d1 d2 m u1 u2))).
Proof.
  unfold detect_merge_keys, ranked.
  destruct (df1 self) as [d1|] eqn:E1;
    [|intros H; inversion H; left; split; [reflexivity | now left]].
  destruct (df2 self) as [d2|] eqn:E2;
    [|intros H; inversion H; left; split; [reflexivity | now right]].
  destruct (unique_cols d1) as [u1|e1] eqn:U1; [|discriminate].
  destruct (unique_cols d2) as [u2|e2] eqn:U2; [|discriminate].
  cbn [bind]. intros H. inversion H. subst. right.
  exists d1, d2, u1, u2. repeat split; trivial.
Qed.

(** X11: when [fuzz.ratio] stays between 0 and 100, every combined score
    that [detect_merge_keys] returns lies between 0 and 1. *)
Theorem detected_scores_in_unit (self self' : MergeEngine) (m : Q)
    (keys : list (string * string * Q)) :
  (forall a b, (0 <= fuzz_ratio a b <= 100)%Z) ->
  detect_merge_keys fuzz_ratio self m = Ok (self', keys) ->
  Forall (fun k => (0 <= snd k)%Q /\ (snd k <= 1)%Q) keys.
Proof.
  intros Hf H.
  destruct (detect_inv _ _ _ _ H)
    as [[-> _]|(d1 & d2 & u1 & u2 & _ & _ & _ & _ & ->)]; [constructor|].
  apply Forall_map, Forall_forall. intros c Hc.
  apply (Permutation_in c (Permutation_sym (sort_reverse_perm _))) in Hc.
  apply collect_origin in Hc. cbn [format_key snd].
  exact (compare_columns_score _ _ _ _ _ _ Hf Hc).
Qed.

End DetectMore.

Lemma detected_scores_in_unit_witness :
  exists self' keys,
    detect_merge_keys (fun _ _ => 100%Z) (loaded ex_left_ids ex_right_ids)
                      (3 # 10) = Ok (self', keys) /\
    Forall (fun k => (0 <= snd k)%Q /\ (snd k <= 1)%Q) keys.
Proof.
  do 2 eexists. split; [vm_compute; reflexivity|].
  eapply (detected_scores_in_unit (fun _ _ => 100%Z)
            (loaded ex_left_ids ex_right_ids) _ (3 # 10)).
  - intros _ _. lia.
  - vm_compute. reflexivity.
Defined.

Section DetectPairs.
Import FrameFacts ListFacts ReportFacts SortFacts DetectFacts.

Variable fuzz_ratio : string -> string -> Z.

Lemma collect_names (d1 d2 : DataFrame) (m : Q) (cols1 cols2 : list string)
    (c : candidate) :
  In c (collect fuzz_ratio d1 d2 m cols1 cols2) ->
  In (cand_col1 c) cols1 /\ In (cand_col2 c) cols2.
Proof.
  intros H. unfold collect in H.
  apply in_flat_map in H. destruct H as (col1 & H1 & H).
  apply in_flat_map in H. destruct H as (col2 & H2 & H).
  destruct (compare_columns fuzz_ratio d1 d2 m col1 col2)
    as [[c'|]|e] eqn:E; try contradiction.
  destruct H as [<-|[]].
  destruct (compare_columns_names _ _ _ _ _ _ _ E) as [-> ->]. now split.
Qed.

Lemma collect_row_NoDup (d1 d2 : DataFrame) (m : Q) (col1 : string)
    (cols2 : list string) :
  NoDup cols2 ->
  NoDup (map names (collect fuzz_ratio d1 d2 m [col1] cols2)).
Proof.
  unfold collect. cbn [flat_map]. rewrite app_nil_r.
  induction cols2 as [|col2 cs IH]; intros N; [constructor|].
  inversion N as [|? ? Hn Ncs]. subst. cbn [flat_map]. rewrite map_app.
  apply NoDup_app; [| now apply IH |].
  - destruct (compare_columns fuzz_ratio d1 d2 m col1 col2) as [[c|]|e];
      repeat constructor. intros [].
  - intros x Hx Hy.
    destruct (compare_columns fuzz_ratio d1 d2 m col1 col2)
      as [[c|]|e] eqn:E; try contradiction.
    destruct Hx as [<-|[]].
    destruct (compare_columns_names _ _ _ _ _ _ _ E) as [_ E2].
    apply in_map_iff in Hy. destruct Hy as (c' & Hn' & Hc').
    assert (K : In c' (collect fuzz_ratio d1 d2 m [col1] cs)).
    { unfold collect. cbn [flat_map]. now rewrite app_nil_r. }
    apply collect_names in K. destruct K as [_ K].
    unfold names in Hn'. inversion Hn' as [[A B]].
    rewrite B, E2 in K. contradiction.
Qed.

Lemma collect_NoDup (d1 d2 : DataFrame) (m : Q) (cols1 cols2 : list string) :
  NoDup cols1 -> NoDup cols2 ->
  NoDup (map names (collect fuzz_ratio d1 d2 m cols1 cols2)).
Proof.
  intros N1 N2. induction cols1 as [|col1 cs IH]; [constructor|].
  inversion N1 as [|? ? Hn Ncs]. subst.
  replace (collect fuzz_ratio d1 d2 m (col1 :: cs) cols2)
    with (collect fuzz_ratio d1 d2 m [col1] cols2
          ++ collect fuzz_ratio d1 d2 m cs cols2)
    by (unfold collect; cbn [flat_map]; now rewrite app_nil_r).
  - rewrite map_app. apply NoDup_app.
    + now apply collect_row_NoDup.
    + now apply IH.
    + intros x Hx Hy.
      apply in_map_iff in Hx. destruct Hx as (c & <- & Hc).
      apply in_map_iff in Hy. destruct Hy as (c' & E & Hc').
      apply collect_names in Hc, Hc'. destruct Hc as [[A|[]] _].
      destruct Hc' as [B _]. unfold names in E. inversion E as [[X Y]].
      rewrite X, <- A in B. contradiction.
Qed.

(** X12: every pair [detect_merge_keys] returns names a column of the
    first file and a column of the second file, each of them with more
    than 70% distinct values, and no pair of columns is returned twice. *)
Theorem detected_pairs_admitted (self self' : MergeEngine)
    (d1 d2 : DataFrame) (m : Q) (keys : list (string * string * Q)) :
  df1 self = Some d1 -> df2 self = Some d2 ->
  detect_merge_keys fuzz_ratio self m = Ok (self', keys) ->
  (forall col1 col2 score, In (col1, col2, score) keys ->
     In col1 (columns d1) /\ admits d1 col1 = true /\
     In col2 (columns d2) /\ admits d2 col2 = true) /\
  NoDup (map fst keys).
Proof.
  intros E1 E2 H.
  destruct (detect_inv _ _ _ _ _ H)
    as [[_ [N|N]]|(a & b & u1 & u2 & A & B & U1 & U2 & ->)];
    try congruence.
  rewrite E1 in A. rewrite E2 in B. inversion A. inversion B. subst a b.
  destruct (unique_cols_of_Ok _ _ _ U1) as [F1 _].
  destruct (unique_cols_of_Ok _ _ _ U2) as [F2 _].
  destruct (unique_cols_NoDup _ _ U1) as [_ N1].
  destruct (unique_cols_NoDup _ _ U2) as [_ N2].
  split.
  - intros col1 col2 score Hin. apply in_map_iff in Hin.
    destruct Hin as (c & Ec & Hc). unfold format_key in Ec.
    inversion Ec. subst col1 col2 score.
    apply (Permutation_in c (Permutation_sym (sort_reverse_perm _))) in Hc.
    apply collect_names in Hc. destruct Hc as [H1 H2].
    rewrite F1 in H1. rewrite F2 in H2.
    apply filter_In in H1, H2. tauto.
  - rewrite map_map.
    change (fun x => fst (format_key x)) with names.
    apply (Permutation_NoDup
             (Permutation_map names (sort_reverse_perm _))).
    now apply collect_NoDup.
Qed.

Lemma collect_threshold_filter (d1 d2 : DataFrame) (m m' : Q)
    (cols1 cols2 : list string) :
  (m <= m')%Q ->
  collect fuzz_ratio d1 d2 m' cols1 cols2
  = filter (fun c => Qle_bool m' (cand_score c))
           (collect fuzz_ratio d1 d2 m cols1 cols2).
Proof.
  intros Hm. unfold collect. rewrite filter_flat_map.
  apply flat_map_ext. intros col1. rewrite filter_flat_map.
  apply flat_map_ext. intros col2. unfold compare_columns.
  destruct (getitem d1 col1) as [[v1|w1]|e1]; try reflexivity.
  destruct (getitem d2 col2) as [[v2|w2]|e2]; try reflexivity.
  cbn [bind as_series].
  destruct (Nat.min _ _ =? 0); [reflexivity|].
  destruct (_ || _); [reflexivity|].
  match goal with
  | |- context [Qle_bool m' ?s] => set (score := s)
  end.
  destruct (Qle_bool m' score) eqn:E'.
  - assert (E : Qle_bool m score = true).
    { apply Qle_bool_iff. apply Qle_bool_iff in E'.
      now apply Qle_trans with m'. }
    rewrite E. cbn [filter cand_score]. now rewrite E'.
  - destruct (Qle_bool m score); [|reflexivity].
    cbn [filter cand_score]. now rewrite E'.
Qed.

Lemma filter_format_key (m' : Q) (l : list candidate) :
  map format_key (filter (fun c => Qle_bool m' (cand_score c)) l)
  = filter (fun k => Qle_bool m' (snd k)) (map format_key l).
Proof.
  induction l as [|c l IH]; [reflexivity|].
  cbn [filter map format_key snd].
  destruct (Qle_bool m' (cand_score c)); cbn [map]; now rewrite IH.
Qed.

(** X13: raising the threshold only removes results: the list returned
    for a higher [min_match_ratio] is the list returned for the lower one
    without the pairs whose score is below the higher threshold, in the
    same order. *)
Theorem detect_threshold_monotone (self self1 : MergeEngine) (m m' : Q)
    (keys : list (string * string * Q)) :
  (m <= m')%Q ->
  detect_merge_keys fuzz_ratio self m = Ok (self1, keys) ->
  exists self2,
    detect_merge_keys fuzz_ratio self m'
    = Ok (self2, filter (fun k => Qle_bool m' (snd k)) keys).
Proof.
  intros Hm H.
  destruct (detect_inv _ _ _ _ _ H)
    as [[-> N]|(d1 & d2 & u1 & u2 & A & B & U1 & U2 & ->)].
  - exists self. unfold detect_merge_keys.
    destruct N as [N|N]; rewrite N; [reflexivity|].
    now destruct (df1 self).
  - unfold detect_merge_keys, ranked. rewrite A, B, U1, U2. cbn [bind].
    eexists. do 2 f_equal.
    rewrite (collect_threshold_filter d1 d2 m m' u1 u2 Hm).
    rewrite sort_reverse_filter. apply filter_format_key.
Qed.

End DetectPairs.

Lemma detected_pairs_admitted_witness :
  exists self' keys,
    detect_merge_keys (fun _ _ => 100%Z) (loaded ex_left_ids ex_right_ids)
                      (3 # 10) = Ok (self', keys) /\
    NoDup (map fst keys).
Proof.
  do 2 eexists. split; [vm_compute; reflexivity|].
  eapply (detected_pairs_admitted (fun _ _ => 100%Z)
            (loaded ex_left_ids ex_right_ids) _ ex_left_ids ex_right_ids
            (3 # 10)); reflexivity.
Defined.

Lemma detect_threshold_monotone_witness :
  exists self1 keys self2,
    detect_merge_keys (fun _ _ => 100%Z) (loaded ex_left_ids ex_right_ids)
                      (3 # 10) = Ok (self1, keys) /\
    detect_merge_keys (fun _ _ => 100%Z) (loaded ex_left_ids ex_right_ids)
                      (7 # 10)
    = Ok (self2, filter (fun k => Qle_bool (7 # 10) (snd k)) keys).
Proof.
  destruct (detect_threshold_monotone (fun _ _ => 100%Z)
              (loaded ex_left_ids ex_right_ids)
              (fst (match detect_merge_keys (fun _ _ => 100%Z)
                            (loaded ex_left_ids ex_right_ids) (3 # 10) with
                    | Ok x => x
                    | Raise _ => (init, [])
                    end))
              (3 # 10) (7 # 10)
              (snd (match detect_merge_keys (fun _ _ => 100%Z)
                            (loaded ex_left_ids ex_right_ids) (3 # 10) with
                    | Ok x => x
                    | Raise _ => (init, [])
                    end)))
    as [self2 H2].
  - unfold Qle. cbn. lia.
  - vm_compute. reflexivity.
  - do 3 eexists. split; [|exact H2]. vm_compute. reflexivity.
Defined.

(** ** [perform_merge]: failures, repetition *)

Section MergeEdges.
Import FrameFacts ListFacts PrepareFacts MergeFacts.

Lemma normalize_key_missing (df : DataFrame) (key : string) :
  ~ In key (columns df) -> normalize_key df key = Raise KeyError.
Proof.
  intros H. unfold normalize_key, getitem.
  apply positions_nil in H. now rewrite H.
Qed.

(** X14: [perform_merge] does not test its keys, but a key that is not a
    column of its file makes the preparation raise: the call returns
    [False] and the engine, the stored result included, stays as it was.
    The same holds when a file is not loaded. *)
Theorem perform_merge_missing_key (self : MergeEngine) (key1 key2 : string)
    (how : join) :
  (df1 self = None \/ df2 self = None \/
   (exists d, df1 self = Some d /\ ~ In key1 (columns d)) \/
   (exists d, df2 self = Some d /\ ~ In key2 (columns d))) ->
  perform_merge self key1 key2 how = (self, false).
Proof.
  intros H. unfold perform_merge.
  destruct (df1 self) as [d1|] eqn:E1; [|reflexivity].
  destruct (df2 self) as [d2|] eqn:E2; [|reflexivity].
  destruct H as [H|[H|[(d & H & K)|(d & H & K)]]]; try discriminate;
    inversion H; subst d; unfold prepare.
  - now rewrite normalize_key_missing.
  - destruct (normalize_key d1 key1); [|reflexivity].
    now rewrite normalize_key_missing.
Qed.

Lemma perform_merge_missing_key_witness :
  perform_merge ex_merged_before "id" "code" JoinInner
  = (ex_merged_before, false).
Proof.
  apply perform_merge_missing_key. right. right. right.
  exists ex_status_right. split; [reflexivity|].
  cbn. intros [H|[H|[]]]; discriminate H.
Defined.

(** X15: with two differently named keys, a right file that also has a
    column named like the left key cannot be merged: renaming the right
    key gives the right frame that label twice, the join refuses it, and
    the call returns [False] without touching the engine. *)
Theorem perform_merge_key_name_taken (self : MergeEngine)
    (d2 : DataFrame) (key1 key2 : string) (how : join) :
  df2 self = Some d2 ->
  key2 <> key1 -> In key1 (columns d2) ->
  perform_merge self key1 key2 how = (self, false).
Proof.
  intros E2 Hne Hin. unfold perform_merge.
  destruct (df1 self) as [d1|] eqn:E1; [|reflexivity]. rewrite E2.
  destruct (prepare d1 d2 key1 key2) as [[l r]|e] eqn:P; [|reflexivity].
  destruct (prepare_inv _ _ _ _ _ _ P) as (p1 & p2 & P1 & P2 & L & R & D).
  enough (K : exists e, pd_merge l r key1 how = Raise e)
    by (destruct K as [e ->]; reflexivity).
  unfold pd_merge.
  destruct (key_position key1 l) as [kl|e]; [|now exists e].
  cbn [bind]. unfold key_position.
  apply In_nth_error in Hin. destruct Hin as [q Hq].
  assert (N2 : nth_error (columns d2) p2 = Some key2).
  { apply positions_In. rewrite P2. now left. }
  assert (Hpq : p2 <> q) by (intros ->; congruence).
  assert (A : In p2 (positions key1 (columns r))).
  { apply positions_In. rewrite R. apply rename_conflicts_key.
    now apply right_start_key. }
  assert (B : In q (positions key1 (columns r))).
  { apply positions_In. rewrite R. apply rename_conflicts_key.
    apply right_start_label; [congruence | exact Hq]. }
  destruct (positions key1 (columns r)) as [|i [|j ps]].
  - destruct A.
  - destruct A as [<-|[]]. destruct B as [<-|[]]. congruence.
  - now exists ValueError.
Qed.

Lemma perform_merge_key_name_taken_witness :
  perform_merge (loaded ex_left_ids ex_right_ids) "id" "status" JoinLeft
  = (loaded ex_left_ids ex_right_ids, false).
Proof.
  apply (perform_merge_key_name_taken (loaded ex_left_ids ex_right_ids)
           ex_right_ids "id" "status" JoinLeft).
  - reflexivity.
  - discriminate.
  - now left.
Defined.

Lemma with_merge_result_twice (self : MergeEngine) (res : DataFrame) :
  with_merge_result (with_merge_result self res) res
  = with_merge_result self res.
Proof. reflexivity. Qed.

(** X16: the merge reads only the two loaded frames and leaves them as
    they are, so the same call made again returns the same boolean and
    leaves the same engine. *)
Theorem perform_merge_repeatable (self : MergeEngine) (key1 key2 : string)
    (how : join) :
  perform_merge (fst (perform_merge self key1 key2 how)) key1 key2 how
  = perform_merge self key1 key2 how.
Proof.
  unfold perform_merge.
  destruct (df1 self) as [d1|] eqn:E1; cbn [fst]; [|now rewrite E1].
  destruct (df2 self) as [d2|] eqn:E2; cbn [fst]; [|now rewrite E1, E2].
  destruct (prepare d1 d2 key1 key2) as [[l r]|e] eqn:P; cbn [fst];
    [|now rewrite E1, E2, P].
  destruct (pd_merge l r key1 how) as [res|e] eqn:M; cbn [fst];
    [|now rewrite E1, E2, P, M].
  destruct (post_check l res) as [u|e] eqn:C; cbn [fst with_merge_result
    df1 df2]; rewrite E1, E2, P, M, C; reflexivity.
Qed.

End MergeEdges.

(** ** [perform_merge]: the shape and the rows of the result *)

Module ShapeFacts.
Import FrameFacts ListFacts PrepareFacts MergeFacts RowFacts.

Lemma length_remove_nth {A : Type} (k : nat) (l : list A) :
  k < List.length l -> List.length (remove_nth k l) = List.length l - 1.
Proof.
  revert k. induction l as [|h t IH]; intros k H; [cbn in H; lia|].
  destruct k; cbn; [lia|]. cbn in H. rewrite IH by lia.
  destruct t; cbn in *; lia.
Qed.

Lemma rename_conflicts_width (l : DataFrame) (key1 : string)
    (rc : list string) (r : DataFrame) :
  List.length (columns (rename_conflicts l key1 rc r))
  = List.length (columns r).
Proof.
  unfold rename_conflicts. revert r.
  induction rc as [|c rc IH]; intros r; [reflexivity|].
  cbn [fold_left]. rewrite IH. destruct (_ && _); [|reflexivity].
  unfold rename. cbn [columns]. apply length_map.
Qed.

Lemma right_start_width (d2 : DataFrame) (key1 key2 : string) (p2 : nat) :
  List.length (columns (right_start d2 key1 key2 p2))
  = List.length (columns d2).
Proof.
  unfold right_start. destruct (negb _); [|reflexivity].
  unfold rename. cbn [columns set_column]. apply length_map.
Qed.

Lemma right_frame_rows (d2 r l : DataFrame) (key1 key2 : string)
    (p2 : nat) :
  well_formed d2 ->
  r = rename_conflicts l key1 (right_snapshot d2 key1 key2)
        (right_start d2 key1 key2 p2) ->
  List.length (columns r) = List.length (columns d2) /\
  Forall (fun row => List.length row = List.length (columns d2)) (rows r).
Proof.
  intros W ->. split.
  - now rewrite rename_conflicts_width, right_start_width.
  - rewrite rename_conflicts_rows, right_start_rows.
    exact (set_column_wf p2 _ d2 W).
Qed.

Lemma right_part_length (r : DataFrame) (kr : nat) (p : pairing) :
  kr < List.length (columns r) ->
  Forall (fun row => List.length row = List.length (columns r)) (rows r) ->
  List.length (right_part r kr p) = List.length (columns r) - 1.
Proof.
  intros Hk W. unfold right_part. destruct (snd p) as [j|]; cbn [take];
    [|apply repeat_length].
  apply nth_length. apply Forall_forall. intros row Hrow.
  apply in_map_iff in Hrow. destruct Hrow as (row0 & <- & H0).
  rewrite Forall_forall in W. rewrite length_remove_nth; rewrite (W _ H0);
    trivial.
Qed.

Lemma left_pairs_covers (lkeys rkeys : list cell) (i : nat) :
  i < List.length lkeys ->
  exists x, In (Some i, x) (left_pairs true lkeys rkeys).
Proof.
  intros H. unfold left_pairs.
  assert (K : In (i, nth i lkeys CNaN)
                 (combine (seq 0 (List.length lkeys)) lkeys)).
  { replace (i, nth i lkeys CNaN)
      with (nth i (combine (seq 0 (List.length lkeys)) lkeys) (0, CNaN)).
    - apply nth_In. rewrite length_combine, length_seq. lia.
    - rewrite combine_nth by now rewrite length_seq.
      now rewrite seq_nth. }
  destruct (matches_of (nth i lkeys CNaN) rkeys) as [|j ms] eqn:E.
  - exists None. apply in_flat_map. eexists. split; [exact K|].
    cbn [fst snd]. rewrite E. now left.
  - exists (Some j). apply in_flat_map. eexists. split; [exact K|].
    cbn [fst snd]. rewrite E. now left.
Qed.

Lemma left_pairs_at_least (lkeys rkeys : list cell) :
  List.length lkeys <= List.length (left_pairs true lkeys rkeys).
Proof.
  unfold left_pairs.
  assert (K : forall (l : list (nat * cell)),
            List.length l <=
            List.length
              (flat_map (fun ik =>
                 match matches_of (snd ik) rkeys with
                 | [] => [(Some (fst ik), @None nat)]
                 | j :: ms => map (fun j0 => (Some (fst ik), Some j0))
                                  (j :: ms)
                 end) l)).
  { induction l as [|x l IH]; [cbn; lia|].
    cbn [flat_map]. rewrite length_app.
    destruct (matches_of (snd x) rkeys); cbn [List.length map] in *; lia. }
  specialize (K (combine (seq 0 (List.length lkeys)) lkeys)).
  rewrite length_combine, length_seq, Nat.min_id in K. exact K.
Qed.

Lemma joined_row_left_row (l r : DataFrame) (kl kr : nat)
    (rkeys : list cell) (q i : nat) (x : option nat) :
  well_formed l -> q < List.length (columns l) ->
  nth q (joined_row l r kl kr rkeys (Some i, x)) CNaN
  = nth i (column_at q l) CNaN.
Proof.
  intros W Hq. unfold joined_row.
  rewrite app_nth1 by (rewrite left_part_length; trivial).
  unfold left_part. destruct x; cbn [take]; apply nth_nth_default.
Qed.

Lemma matches_of_none (k : cell) (keys : list cell) :
  ~ In k keys -> matches_of k keys = [].
Proof.
  unfold matches_of. generalize 0.
  induction keys as [|k' t IH]; intros i H; [reflexivity|].
  cbn [matches_from]. destruct (cell_eq_dec k k') as [->|Hne].
  - exfalso. apply H. now left.
  - apply IH. intros K. apply H. now right.
Qed.

Lemma left_pairs_disjoint (lkeys rkeys : list cell) :
  (forall k, In k lkeys -> ~ In k rkeys) ->
  left_pairs false lkeys rkeys = [].
Proof.
  intros H. unfold left_pairs.
  assert (K : forall l : list (nat * cell),
            (forall ik, In ik l -> In (snd ik) lkeys) ->
            flat_map (fun ik =>
              match matches_of (snd ik) rkeys with
              | [] => if false then [(Some (fst ik), None)] else []
              | j :: ms => map (fun j0 => (Some (fst ik), Some j0)) (j :: ms)
              end) l = []).
  { induction l as [|x l IH]; intros Hl; [reflexivity|].
    cbn [flat_map]. rewrite matches_of_none.
    - cbn [app]. apply IH. intros ik Hik. apply Hl. now right.
    - apply H, Hl. now left. }
  apply K. intros [i k] Hik. cbn [snd]. now apply in_combine_r in Hik.
Qed.

End ShapeFacts.

Section MergeShape.
Import FrameFacts ListFacts PrepareFacts MergeFacts RowFacts ShapeFacts.

(** X17: the result of a merge that succeeds is a rectangular frame: it
    has the columns of the left file, in their order and under their
    names, followed by one column for each column of the right file but
    its key, and every row has one cell per column. *)
Theorem merge_result_shape (self self' : MergeEngine) (d1 d2 : DataFrame)
    (key1 key2 : string) (how : join) :
  df1 self = Some d1 -> df2 self = Some d2 ->
  well_formed d1 -> well_formed d2 ->
  perform_merge self key1 key2 how = (self', true) ->
  exists res,
    merge_result self' = Some res /\
    well_formed res /\
    firstn (List.length (columns d1)) (columns res) = columns d1 /\
    List.length (columns res)
    = List.length (columns d1) + List.length (columns d2) - 1.
Proof.
  intros E1 E2 W1 W2 H.
  destruct (perform_merge_success _ _ _ _ _ _ _ E1 E2 H)
    as (p1 & p2 & l & r & rlabels & P1 & P2 & L & R & ND & PR & RL & M).
  destruct (right_frame_rows d2 r l key1 key2 p2 W2 R) as [CR WR].
  assert (CL : columns l = columns d1) by now rewrite L.
  assert (WL : well_formed l) by (rewrite L; now apply set_column_wf).
  assert (B2 : p2 < List.length (columns r)).
  { apply nth_error_Some.
    assert (K : In p2 (positions key1 (columns r))) by (rewrite PR; now left).
    apply positions_In in K. congruence. }
  assert (LR : List.length rlabels = List.length (columns r) - 1).
  { rewrite (right_labels_inv _ _ _ RL), length_map.
    now apply length_remove_nth. }
  eexists. split; [exact M|]. cbn [columns]. rewrite CL. repeat split.
  - unfold well_formed. cbn [rows columns]. apply Forall_forall.
    intros row Hrow. apply in_map_iff in Hrow.
    destruct Hrow as (p & <- & _). unfold joined_row.
    rewrite !length_app, left_part_length, right_part_length, CL, LR;
      trivial.
    now rewrite <- CR in WR.
  - rewrite firstn_app, Nat.sub_diag, firstn_all. cbn [firstn].
    apply app_nil_r.
  - rewrite length_app, LR, CR. lia.
Qed.

Lemma merge_result_shape_witness :
  exists res,
    merge_result
      (fst (perform_merge (loaded ex_left_ids ex_right_ids) "id" "id"
              JoinOuter)) = Some res /\
    well_formed res /\
    firstn 2 (columns res) = ["id"; "name"] /\
    List.length (columns res) = 3.
Proof.
  apply (merge_result_shape (loaded ex_left_ids ex_right_ids)
           (fst (perform_merge (loaded ex_left_ids ex_right_ids) "id" "id"
                   JoinOuter))
           ex_left_ids ex_right_ids "id" "id" JoinOuter);
    try reflexivity; repeat constructor.
Defined.

(** X18: a left join that succeeds does not lose a row of the left file:
    the result has at least as many rows, and for every left row it has a
    row that starts with the cells of that row, the key cell replaced by
    its normalized text. *)
Theorem left_join_keeps_left_rows (self self' : MergeEngine)
    (d1 d2 : DataFrame) (key1 key2 : string) (p1 : nat) :
  df1 self = Some d1 -> df2 self = Some d2 ->
  well_formed d1 ->
  positions key1 (columns d1) = [p1] ->
  perform_merge self key1 key2 JoinLeft = (self', true) ->
  exists res,
    merge_result self' = Some res /\
    len d1 <= len res /\
    forall i, i < len d1 ->
      exists row,
        In row (rows res) /\
        forall q, q < List.length (columns d1) ->
          nth q row CNaN =
          if q =? p1 then norm_cell (nth i (column_at p1 d1) CNaN)
          else nth i (column_at q d1) CNaN.
Proof.
  intros E1 E2 W1 Hp1 H.
  destruct (perform_merge_success _ _ _ _ _ _ _ E1 E2 H)
    as (p1' & p2 & l & r & rlabels & P1 & P2 & L & R & ND & PR & RL & M).
  rewrite Hp1 in P1. inversion P1. subst p1'. clear P1.
  assert (CL : columns l = columns d1) by now rewrite L.
  assert (WL : well_formed l) by (rewrite L; now apply set_column_wf).
  assert (LL : len l = len d1).
  { rewrite L. apply set_column_len.
    now rewrite length_map, column_at_length. }
  eexists. split; [exact M|]. cbn [join_index]. split.
  - unfold len at 2. cbn [rows]. rewrite length_map.
    eapply Nat.le_trans; [|apply left_pairs_at_least].
    now rewrite column_at_length, LL.
  - intros i Hi.
    destruct (left_pairs_covers (column_at p1 l) (column_at p2 r) i)
      as [x Hx]; [now rewrite column_at_length, LL|].
    exists (joined_row l r p1 p2 (column_at p2 r) (Some i, x)).
    split; [cbn [rows]; now apply in_map|].
    intros q Hq. rewrite joined_row_left_row by (trivial; now rewrite CL).
    destruct (Nat.eqb_spec q p1) as [->|Hne].
    + rewrite L, column_at_set_column; trivial.
      * rewrite (nth_indep _ CNaN (norm_cell CNaN))
          by now rewrite length_map, column_at_length.
        apply map_nth.
      * now rewrite length_map, column_at_length.
    + rewrite L, column_at_set_column_other; trivial; [congruence|].
      now rewrite length_map, column_at_length.
Qed.

Lemma left_join_keeps_left_rows_witness :
  exists res,
    merge_result
      (fst (perform_merge (loaded ex_one_key ex_two_keys) "id" "id"
              JoinLeft)) = Some res /\
    len ex_one_key <= len res.
Proof.
  destruct (left_join_keeps_left_rows (loaded ex_one_key ex_two_keys)
              (fst (perform_merge (loaded ex_one_key ex_two_keys) "id" "id"
                      JoinLeft))
              ex_one_key ex_two_keys "id" "id" 0)
    as (res & M & Hl & _); try reflexivity.
  - repeat constructor.
  - exists res. now split.
Defined.

(** X19: when the two files have no key in common after the
    normalization of the merge, an inner join that succeeds stores a
    result without rows. *)
Theorem inner_join_disjoint_empty (self self' : MergeEngine)
    (d1 d2 : DataFrame) (key1 key2 : string) (v1 v2 : list cell) :
  df1 self = Some d1 -> df2 self = Some d2 ->
  well_formed d1 -> well_formed d2 ->
  getitem d1 key1 = Ok (Series v1) -> getitem d2 key2 = Ok (Series v2) ->
  (forall a b, In a v1 -> In b v2 -> merge_key a <> merge_key b) ->
  perform_merge self key1 key2 JoinInner = (self', true) ->
  exists res, merge_result self' = Some res /\ len res = 0.
Proof.
  intros E1 E2 W1 W2 G1 G2 Hd H.
  destruct (perform_merge_success _ _ _ _ _ _ _ E1 E2 H)
    as (p1 & p2 & l & r & rlabels & P1 & P2 & L & R & ND & PR & RL & M).
  destruct (getitem_Series _ _ _ G1) as (q1 & Q1 & ->).
  destruct (getitem_Series _ _ _ G2) as (q2 & Q2 & ->).
  rewrite P1 in Q1. rewrite P2 in Q2. inversion Q1. inversion Q2.
  subst q1 q2.
  eexists. split; [exact M|]. unfold len. cbn [rows join_index].
  rewrite length_map, left_pairs_disjoint; [reflexivity|].
  rewrite (right_keys d2 r key1 key2 p2 l W2 P2 R).
  rewrite L, column_at_set_column; trivial.
  - intros k Hk Hk'. apply in_map_iff in Hk, Hk'.
    destruct Hk as (a & <- & Ha). destruct Hk' as (b & Eb & Hb).
    unfold norm_cell in Eb. inversion Eb as [E].
    exact (Hd a b Ha Hb (eq_sym E)).
  - apply nth_error_Some.
    assert (K : In p1 (positions key1 (columns d1))) by (rewrite P1; now left).
    apply positions_In in K. congruence.
  - now rewrite length_map, column_at_length.
Qed.

Lemma inner_join_disjoint_empty_witness :
  exists res,
    merge_result
      (fst (perform_merge (loaded ex_left_ids ex_right_ids) "id" "id"
              JoinInner)) = Some res /\
    len res = 0.
Proof.
  apply (inner_join_disjoint_empty (loaded ex_left_ids ex_right_ids)
           (fst (perform_merge (loaded ex_left_ids ex_right_ids) "id" "id"
                   JoinInner))
           ex_left_ids ex_right_ids "id" "id"
           [CStr "A1"; CStr "A2"] [CStr "a1"; CStr "A3"]);
    try reflexivity; try (repeat constructor).
  intros a b [<-|[<-|[]]] [<-|[<-|[]]]; vm_compute; discriminate.
Defined.

End MergeShape.

(** ** [perform_merge]: files with plain labels *)

Module CleanFacts.
Import FrameFacts ListFacts PrepareFacts MergeFacts RowFacts ShapeFacts.









Lemma inspect_ok (res : DataFrame) (cols : list string) :
  NoDup (columns res) -> inspect res cols = Ok tt.
Proof.
  intros N. induction cols as [|c cs IH]; [reflexivity|].
  cbn [inspect]. destruct (mem c (columns res)) eqn:M; [|exact IH].
  apply mem_In in M. destruct (getitem_NoDup res c N M) as (p & _ & G).
  rewrite G. exact IH.
Qed.



End CleanFacts.

Section CleanMerge.
Import FrameFacts ListFacts PrepareFacts MergeFacts RowFacts ShapeFacts
       CleanFacts.



End CleanMerge.

(** ** [get_preview_data] *)

Module PreviewFacts.
Import FrameFacts.

Lemma dict_set_fresh (k : string) (v : cell) (d : list (string * cell)) :
  ~ In k (map fst d) -> dict_set k v d = d ++ [(k, v)].
Proof.
  induction d as [|[k' v'] d IH]; intros H; [reflexivity|].
  cbn. destruct (String.eqb_spec k' k) as [->|_].
  - exfalso. apply H. now left.
  - f_equal. apply IH. intros K. apply H. now right.
Qed.

Lemma fold_dict_set (pairs acc : list (string * cell)) :
  NoDup (map fst (acc ++ pairs)) ->
  fold_left (fun d kv => dict_set (fst kv) (snd kv) d) pairs acc
  = acc ++ pairs.
Proof.
  revert acc. induction pairs as [|[k v] pairs IH]; intros acc N.
  - now rewrite app_nil_r.
  - cbn [fold_left fst snd]. rewrite dict_set_fresh.
    + rewrite IH; rewrite <- app_assoc; [reflexivity | exact N].
    + rewrite map_app in N. cbn in N. apply NoDup_remove_2 in N.
      intros K. apply N. apply in_or_app. now left.
Qed.

(** Without repeated keys the dictionary is the list of pairs. *)
Lemma dict_of_NoDup (pairs : list (string * cell)) :
  NoDup (map fst pairs) -> dict_of pairs = pairs.
Proof. intros N. unfold dict_of. now rewrite fold_dict_set. Qed.

Lemma map_fst_combine (cols : list string) (row : list cell) :
  List.length row = List.length cols -> map fst (combine cols row) = cols.
Proof.
  revert row. induction cols as [|c cs IH]; intros row H; [reflexivity|].
  destruct row as [|x row]; [discriminate|]. cbn. f_equal. apply IH.
  cbn in H. lia.
Qed.

Lemma dict_get_combine (cols : list string) (row : list cell) (c : string)
    (p : nat) :
  NoDup cols -> List.length row = List.length cols ->
  nth_error cols p = Some c ->
  dict_get c (combine cols row) = Some (nth p row CNaN).
Proof.
  revert row p. induction cols as [|k cs IH]; intros row p N L H.
  - now destruct p.
  - destruct row as [|x row]; [discriminate|].
    inversion N as [|? ? Hn Ncs]. subst. cbn [combine dict_get].
    destruct p as [|p].
    + cbn in H. inversion H. subst. now rewrite String.eqb_refl.
    + cbn in H. destruct (String.eqb_spec k c) as [->|_].
      * exfalso. apply Hn. exact (nth_error_In _ _ H).
      * cbn [nth]. apply IH; trivial. cbn in L. lia.
Qed.

Lemma head_len (n : Z) (df : DataFrame) :
  (0 <= n)%Z -> len (head n df) = Nat.min (Z.to_nat n) (len df).
Proof.
  intros H. unfold head, len. cbn [rows].
  replace (0 <=? n)%Z with true by (symmetry; now apply Z.leb_le).
  apply length_firstn.
Qed.

End PreviewFacts.

Section PreviewProps.
Import FrameFacts PreviewFacts.

Variable fuzz_ratio : string -> string -> Z.
Variable basename : string -> string.

(** X21: after any sequence of calls on a fresh engine, the preview of a
    loaded file reports at least one row and one column, as many column
    names as columns, and, for a [max_rows] that is not negative, shows
    [max_rows] records or all the rows when there are fewer. *)
Theorem preview_counts (ops : list operation) (max_rows : Z)
    (pv : file_preview) :
  (0 <= max_rows)%Z ->
  fst (get_preview_data basename (run fuzz_ratio ops) max_rows) = Some pv \/
  snd (get_preview_data basename (run fuzz_ratio ops) max_rows) = Some pv ->
  1 <= pv_rows pv /\ 1 <= pv_columns pv /\
  List.length (pv_column_names pv) = pv_columns pv /\
  List.length (pv_preview pv) = Nat.min (Z.to_nat max_rows) (pv_rows pv).
Proof.
  intros Hn H. unfold get_preview_data in H. cbn [fst snd] in H.
  assert (K : exists path d,
            (df1 (run fuzz_ratio ops) = Some d \/
             df2 (run fuzz_ratio ops) = Some d) /\
            pv = preview_of basename path max_rows d).
  { destruct H as [H|H].
    - destruct (df1 (run fuzz_ratio ops)) as [d|] eqn:E; [|discriminate].
      cbn in H. inversion H. eexists. exists d. split; [now left|].
      reflexivity.
    - destruct (df2 (run fuzz_ratio ops)) as [d|] eqn:E; [|discriminate].
      cbn in H. inversion H. eexists. exists d. split; [now right|].
      reflexivity. }
  destruct K as (path & d & Hd & ->).
  pose proof (run_frames_nonempty fuzz_ratio ops d Hd) as E.
  unfold empty in E. apply orb_false_iff in E. destruct E as [Ec Er].
  apply Nat.eqb_neq in Ec, Er.
  unfold preview_of. cbn [pv_rows pv_columns pv_column_names pv_preview].
  repeat split; try lia.
  unfold to_records. rewrite length_map. now apply head_len.
Qed.

(** X22: the records of the preview agree with the frame.  For a frame
    without repeated labels, the record of a shown row gives, under each
    column name, the cell of that row and column. *)
Theorem preview_records_agree (path : string) (max_rows : Z)
    (df : DataFrame) (c : string) (p i : nat) :
  NoDup (columns df) -> well_formed df ->
  nth_error (columns df) p = Some c ->
  (0 <= max_rows)%Z -> i < Z.to_nat max_rows -> i < len df ->
  exists record,
    nth_error (pv_preview (preview_of basename path max_rows df)) i
    = Some record /\
    dict_get c record = Some (nth i (column_at p df) CNaN).
Proof.
  intros N W Hp Hn Hi Hl.
  unfold preview_of, to_records, head.
  cbn [pv_preview rows columns].
  replace (0 <=? max_rows)%Z with true by (symmetry; now apply Z.leb_le).
  assert (R : nth_error (firstn (Z.to_nat max_rows) (rows df)) i
              = Some (nth i (rows df) [])).
  { rewrite nth_error_firstn.
    replace (i <? Z.to_nat max_rows) with true
      by (symmetry; now apply Nat.ltb_lt).
    now apply nth_error_nth'. }
  eexists. split.
  - rewrite nth_error_map, R. reflexivity.
  - assert (Hr : In (nth i (rows df) []) (rows df)) by now apply nth_In.
    unfold well_formed in W. rewrite Forall_forall in W.
    specialize (W _ Hr).
    rewrite dict_of_NoDup by now rewrite map_fst_combine.
    rewrite (dict_get_combine _ _ c p); trivial.
    f_equal. unfold column_at.
    rewrite (nth_indep (map (fun r => nth p r CNaN) (rows df)) CNaN
               (nth p [] CNaN))
      by now rewrite length_map.
    now rewrite (map_nth (fun r => nth p r CNaN)).
Qed.

End PreviewProps.

Lemma preview_counts_witness :
  exists pv,
    fst (get_preview_data (fun s => s)
           (run (fun _ _ => 0%Z)
                [LoadFile "a.csv" (ReadFrame ex_left_ids) 1]) 5) = Some pv /\
    List.length (pv_preview pv) = 2.
Proof.
  eexists. split; [reflexivity|].
  apply (preview_counts (fun _ _ => 0%Z) (fun s => s)
           [LoadFile "a.csv" (ReadFrame ex_left_ids) 1] 5).
  - lia.
  - left. reflexivity.
Defined.

Lemma preview_records_agree_witness :
  exists record,
    nth_error (pv_preview (preview_of (fun s => s) "b.csv" 1 ex_right_ids)) 0
    = Some record /\
    dict_get "status" record = Some (CStr "ok").
Proof.
  apply (preview_records_agree (fun s => s) "b.csv" 1 ex_right_ids
           "status" 1 0).
  - repeat constructor; cbn; intuition discriminate.
  - repeat constructor.
  - reflexivity.
  - lia.
  - cbn. lia.
  - cbn. lia.
Defined.

(** ** [perform_merge]: what a failure can leave behind *)

Section FailureExtent.
Import CleanFacts.

(** X23: a call of [perform_merge] that returns [False] leaves the engine
    as it was, except when the join itself returned a frame in which a
    column label occurs twice: that frame is then stored as the result,
    and nothing else of the engine changes. *)
Theorem perform_merge_failure_extent (self self' : MergeEngine)
    (key1 key2 : string) (how : join) :
  perform_merge self key1 key2 how = (self', false) ->
  self' = self \/
  exists res, self' = with_merge_result self res /\ ~ NoDup (columns res).
Proof.
  unfold perform_merge.
  destruct (df1 self) as [d1|]; [|intros H; inversion H; now left].
  destruct (df2 self) as [d2|]; [|intros H; inversion H; now left].
  destruct (prepare d1 d2 key1 key2) as [[l r]|e];
    [|intros H; inversion H; now left].
  destruct (pd_merge l r key1 how) as [res|e];
    [|intros H; inversion H; now left].
  destruct (post_check l res) as [u|e] eqn:C; [discriminate|].
  intros H. inversion H. right. exists res. split; [reflexivity|].
  intros N. unfold post_check in C. rewrite (inspect_ok res _ N) in C.
  discriminate.
Qed.

Lemma perform_merge_failure_extent_witness :
  fst (perform_merge ex_merged_before "id" "id" JoinLeft) = ex_merged_before \/
  exists res,
    fst (perform_merge ex_merged_before "id" "id" JoinLeft)
    = with_merge_result ex_merged_before res /\ ~ NoDup (columns res).
Proof.
  apply (perform_merge_failure_extent ex_merged_before _ "id" "id" JoinLeft).
  reflexivity.
Defined.

End FailureExtent.
